(** * FCSP state monitor: a shallow embedding of [examples/fcsp_state_monitor.py]

    The monitor polls a charging station through the [FCSP] REST client,
    compares the state it reads with the state it saw last, and prints a
    report when they differ.  The client, the clock and the signals of the
    operating system are the environment: each run of the model is given
    the answers of the environment as data, and returns the console output
    and the sleeps as a trace. *)

From Stdlib Require Import ZArith Ascii String DecimalString List.
From stdpp Require Import base option list strings gmap.
Import ListNotations.

Local Open Scope Z_scope.

(** ** Python values and their text *)

(** A state code is a Python [str]; [None] is Python's [None], which
    [dict.get] returns for a missing key. *)
Definition py_value := option string.

(** [str(n)] for an [int]. *)
Definition str_int (n : Z) : string := NilZero.string_of_int (Z.to_int n).

(** [f"{v}"] for a [str] or [None]. *)
Definition py_str (v : py_value) : string :=
  match v with
  | Some s => s
  | None => "None"
  end.

Definition hex_digit (n : N) : ascii :=
  match n with
  | 0 => "0" | 1 => "1" | 2 => "2" | 3 => "3" | 4 => "4" | 5 => "5"
  | 6 => "6" | 7 => "7" | 8 => "8" | 9 => "9" | 10 => "a" | 11 => "b"
  | 12 => "c" | 13 => "d" | 14 => "e" | _ => "f"
  end%N%char.

Definition mem_ascii (a : ascii) (s : string) : bool :=
  existsb (Ascii.eqb a) (list_ascii_of_string s).

(** The quote [repr] chooses for a [str]: a single quote, unless the text
    has a single quote and no double quote. *)
Definition repr_quote (s : string) : ascii :=
  if mem_ascii "'" s && negb (mem_ascii (ascii_of_N 34) s)
  then ascii_of_N 34 else "'"%char.

(** One character of [repr] of a [str].  The text is held as UTF-8 bytes;
    a byte above 127 belongs to a character outside ASCII and is kept, as
    [repr] keeps the printable ones. *)
Definition repr_char (q a : ascii) : string :=
  let n := N_of_ascii a in
  if Ascii.eqb a q || Ascii.eqb a "\"
  then String "\" (String a EmptyString)
  else if (n =? 9)%N then "\t"
  else if (n =? 10)%N then "\n"
  else if (n =? 13)%N then "\r"
  else if (n <? 32)%N || (n =? 127)%N
  then String "\" (String "x" (String (hex_digit (n / 16))
         (String (hex_digit (n mod 16)) EmptyString)))
  else String a EmptyString.

Fixpoint repr_body (q : ascii) (s : string) : string :=
  match s with
  | EmptyString => EmptyString
  | String a s' => repr_char q a +:+ repr_body q s'
  end.

(** [repr(v)] for a [str] or [None]. *)
Definition py_repr (v : py_value) : string :=
  match v with
  | None => "None"
  | Some s =>
      let q := repr_quote s in
      String q (repr_body q s +:+ String q EmptyString)
  end.

(** An inverter state list is a Python [list] of state codes, or [None]
    before the first poll and on a failed fetch. *)
Definition inverter_list := option (list py_value).

(** [f"{l}"] for a list or [None]: a list prints the [repr] of its
    elements. *)
Definition str_inverters (l : inverter_list) : string :=
  match l with
  | None => "None"
  | Some vs => "[" +:+ String.concat ", " (map py_repr vs) +:+ "]"
  end.

(** ** The state catalog *)

(** A catalog entry.  The fallback entry of an unknown code has no
    [description]. *)
Record descriptor := Descriptor {
  name : string;
  description : option string;
  icon : string
}.

Definition DEVICE_STATES : gmap string descriptor :=
  list_to_map [
    ("CS00", {| name := "Available";
                description := Some "No vehicle connected - Ready for charging";
                icon := "🟢" |});
    ("CS01", {| name := "Connected (Not Charging)";
                description := Some "Vehicle connected but charging paused/stopped";
                icon := "🟡" |});
    ("CS02", {| name := "Charging";
                description := Some "Vehicle connected and actively charging";
                icon := "🔋" |});
    ("CS03", {| name := "Error/Fault";
                description := Some "Possible error or fault condition";
                icon := "🔴" |})
  ].

(** The default handed to [DEVICE_STATES.get]:
    [{'name': f'Unknown ({code})', 'icon': '❓'}]. *)
Definition unknown_info (code : py_value) : descriptor :=
  {| name := "Unknown (" +:+ py_str code +:+ ")";
     description := None;
     icon := "❓" |}.

(** [DEVICE_STATES.get(code, {...})], the lookup the monitor makes for
    every code it prints.  [None] is never a key of the catalog. *)
Definition state_info (code : py_value) : descriptor :=
  match code with
  | Some c => default (unknown_info code) (DEVICE_STATES !! c)
  | None => unknown_info code
  end.

(** ** Formatting a change *)

Definition inverters_differ (old_inverters new_inverters : inverter_list) : bool :=
  bool_decide (old_inverters ≠ new_inverters).

(** The [lines] list of [format_state_change]; [timestamp] is the text of
    [datetime.now().strftime('%Y-%m-%d %H:%M:%S')]. *)
Definition header_line (timestamp : string) : string :=
  String (ascii_of_N 10) ("🔔 [" +:+ timestamp +:+ "] STATE CHANGE DETECTED!").

Definition device_line (old_state new_state : py_value) : string :=
  let old_info := state_info old_state in
  let new_info := state_info new_state in
  "   Device: " +:+ icon old_info +:+ " " +:+ py_str old_state
    +:+ " (" +:+ name old_info +:+ ") → "
    +:+ icon new_info +:+ " " +:+ py_str new_state
    +:+ " (" +:+ name new_info +:+ ")".

Definition inverter_line (old_inverters new_inverters : inverter_list) : string :=
  "   Inverters: " +:+ str_inverters old_inverters +:+ " → "
    +:+ str_inverters new_inverters.

Definition format_lines (timestamp : string) (old_state new_state : py_value)
    (old_inverters new_inverters : inverter_list) : list string :=
  [header_line timestamp; device_line old_state new_state]
  ++ (if inverters_differ old_inverters new_inverters
      then [inverter_line old_inverters new_inverters] else []).

Definition format_state_change (timestamp : string) (old_state new_state : py_value)
    (old_inverters new_inverters : inverter_list) : string :=
  String.concat (String (ascii_of_N 10) EmptyString)
    (format_lines timestamp old_state new_state old_inverters new_inverters).

(** ** The environment: exceptions, the device client, signals *)

(** What a Python call can raise.  [Exc msg] is an instance of
    [Exception] whose [str] is [msg]; [KeyboardInterrupt] derives from
    [BaseException] only, so [except Exception] does not catch it. *)
Inductive py_exc :=
| Exc (msg : string)
| KeyboardInterrupt.

Inductive outcome (A : Type) :=
| Returns (a : A)
| Raises (e : py_exc).
Arguments Returns {A} a.
Arguments Raises {A} e.

(** Sequencing: the first exception raised ends the computation. *)
#[global] Instance outcome_bind : MBind outcome := fun A B k m =>
  match m with
  | Returns a => k a
  | Raises e => Raises e
  end.

Fixpoint for_each {A B} (f : A -> outcome B) (l : list A) : outcome (list B) :=
  match l with
  | [] => Returns []
  | a :: l' => b ← f a; bs ← for_each f l'; Returns (b :: bs)
  end.

(** A record the client hands back: a [dict], or an object on which
    [.get('state')] raises an exception of text [err]. *)
Inductive info :=
| InfoDict (d : gmap string string)
| InfoOther (err : string).

(** What the client does during one [get_current_state]: the answers of
    [FCSP().__enter__], [get_charger_info], [get_inverter_info] and
    [__exit__], and the signal delivered meanwhile, if any. *)
Record device_world := DeviceWorld {
  w_enter : option py_exc;
  w_charger_info : outcome info;
  w_inverter_info : outcome (list info);
  w_exit : option py_exc;
  w_signal : option Z
}.

(** What the console and the clock see. *)
Inductive event :=
| EPrint (text : string)
| ESleep (seconds : Z)
| EPoll.

Definition trace := list event.

(** ** The monitor session *)

Record session := Session {
  poll_interval : Z;
  previous_state : py_value;
  previous_inverter_states : inverter_list;
  running : bool
}.

Definition set_running (s : session) (r : bool) : session :=
  {| poll_interval := poll_interval s;
     previous_state := previous_state s;
     previous_inverter_states := previous_inverter_states s;
     running := r |}.

Definition set_previous (s : session) (st : py_value) (inv : inverter_list) : session :=
  {| poll_interval := poll_interval s;
     previous_state := st;
     previous_inverter_states := inv;
     running := running s |}.

Definition newline : string := String (ascii_of_N 10) EmptyString.

Definition _signal_handler (s : session) (signum : Z) : session * trace :=
  (set_running s false,
   [EPrint (newline +:+ "👋 Received signal " +:+ str_int signum
            +:+ ", shutting down gracefully...")]).

(** The handler runs when the environment delivers a signal. *)
Definition deliver (sig : option Z) (s : session) : session * trace :=
  match sig with
  | Some signum => _signal_handler s signum
  | None => (s, [])
  end.

(** [FCSPStateMonitor(poll_interval)]; [registration] is what
    [signal.signal] raises, if it does. *)
Definition __init__ (interval : Z) (registration : option py_exc) : outcome session :=
  match registration with
  | Some e => Raises e
  | None =>
      Returns {| poll_interval := interval;
                 previous_state := None;
                 previous_inverter_states := None;
                 running := false |}
  end.

(** ** [get_current_state] *)

(** [rec.get('state')]. *)
Definition get_state (i : info) : outcome py_value :=
  match i with
  | InfoDict d => Returns (d !! "state")
  | InfoOther err => Raises (Exc err)
  end.

(** The body of the [with] block. *)
Definition fetch_body (w : device_world) : outcome (py_value * list py_value) :=
  charger_info ← w_charger_info w;
  inverter_info ← w_inverter_info w;
  device_state ← get_state charger_info;
  inverter_states ← for_each get_state inverter_info;
  Returns (device_state, inverter_states).

(** [with FCSP() as fcsp: body]: [__exit__] runs whenever [__enter__]
    succeeded, and what it raises replaces the result of the body. *)
Definition with_fcsp {A} (w : device_world) (body : outcome A) : outcome A :=
  match w_enter w with
  | Some e => Raises e
  | None =>
      match w_exit w with
      | Some e => Raises e
      | None => body
      end
  end.

Definition get_current_state (w : device_world)
    : trace * outcome (py_value * inverter_list) :=
  match with_fcsp w (fetch_body w) with
  | Returns (device_state, inverter_states) =>
      ([], Returns (device_state, Some inverter_states))
  | Raises (Exc msg) =>
      ([EPrint ("❌ Error getting state: " +:+ msg)], Returns (None, None))
  | Raises KeyboardInterrupt => ([], Raises KeyboardInterrupt)
  end.

(** ** One turn of the monitoring loop *)

(** How [time.sleep(poll_interval)] ends: it returns, with the signal
    delivered meanwhile if there was one, or it raises. *)
Inductive sleep_outcome :=
| Slept (sig : option Z)
| SleepRaised (e : py_exc).

(** What the environment does during one turn of the [while] loop:
    the sleep, the client during the fetch, the clock read by
    [format_state_change], and the signal delivered during the five
    seconds of recovery, if the turn gets there. *)
Record cycle := Cycle {
  c_sleep : sleep_outcome;
  c_world : device_world;
  c_now : string;
  c_recovery_signal : option Z
}.

Inductive control :=
| Next
| Break.

(** [time.sleep(secs)]: a negative length is a [ValueError]. *)
Definition time_sleep (secs : Z) (o : sleep_outcome) (s : session)
    : session * trace * outcome unit :=
  if secs <? 0 then (s, [], Raises (Exc "sleep length must be non-negative"))
  else
    match o with
    | Slept sig =>
        let '(s', t) := deliver sig s in
        (s', ESleep secs :: t, Returns tt)
    | SleepRaised e => (s, [], Raises e)
    end.

(** The comparison of lines 155-156. *)
Definition state_changed (s : session) (current_state : py_value)
    (current_inverters : inverter_list) : bool :=
  bool_decide (current_state ≠ previous_state s)
  || bool_decide (current_inverters ≠ previous_inverter_states s).

(** Lines 154-167: compare, report, update. *)
Definition check_for_changes (s : session) (now : string)
    (current_state : py_value) (current_inverters : inverter_list)
    : session * trace :=
  if state_changed s current_state current_inverters then
    let change_message :=
      format_state_change now (previous_state s) current_state
        (previous_inverter_states s) current_inverters in
    (set_previous s current_state current_inverters, [EPrint change_message])
  else (s, []).

(** Lines 148-167, from the fetch on. *)
Definition poll (s : session) (c : cycle) : session * trace * outcome control :=
  let '(s1, t1) := deliver (w_signal (c_world c)) s in
  let '(t2, r) := get_current_state (c_world c) in
  match r with
  | Raises e => (s1, EPoll :: t1 ++ t2, Raises e)
  | Returns (None, _) => (s1, EPoll :: t1 ++ t2, Returns Next)
  | Returns (Some st, current_inverters) =>
      let '(s2, t3) := check_for_changes s1 (c_now c) (Some st) current_inverters in
      (s2, EPoll :: t1 ++ t2 ++ t3, Returns Next)
  end.

(** The body of the [try]. *)
Definition try_body (s : session) (c : cycle) : session * trace * outcome control :=
  match time_sleep (poll_interval s) (c_sleep c) s with
  | (s1, t1, Raises e) => (s1, t1, Raises e)
  | (s1, t1, Returns _) =>
      if negb (running s1) then (s1, t1, Returns Break)
      else
        let '(s2, t2, r) := poll s1 c in
        (s2, t1 ++ t2, r)
  end.

(** The delay of the [except Exception] handler. *)
Definition recovery_delay : Z := 5.

(** The [try] with its two handlers. *)
Definition loop_body (s : session) (c : cycle) : session * trace * control :=
  match try_body s c with
  | (s1, t1, Returns ctl) => (s1, t1, ctl)
  | (s1, t1, Raises KeyboardInterrupt) => (s1, t1, Break)
  | (s1, t1, Raises (Exc msg)) =>
      let '(s2, t2) := deliver (c_recovery_signal c) s1 in
      (s2,
       t1 ++ [EPrint ("❌ Unexpected error in monitoring loop: " +:+ msg);
              ESleep recovery_delay] ++ t2,
       Next)
  end.

(** How far a run got: the loop was left, or the script of the
    environment ended with the loop still turning. *)
Inductive loop_status :=
| LoopExited
| LoopRunning.

(** [while self.running: ...] against the turns the environment allows. *)
Fixpoint while_running (s : session) (cycles : list cycle)
    : session * trace * loop_status :=
  if negb (running s) then (s, [], LoopExited)
  else
    match cycles with
    | [] => (s, [], LoopRunning)
    | c :: cycles' =>
        match loop_body s c with
        | (s1, t1, Break) => (s1, t1, LoopExited)
        | (s1, t1, Next) =>
            let '(s2, t2, st) := while_running s1 cycles' in
            (s2, t1 ++ t2, st)
        end
    end.

(** ** [monitor] and [main] *)

Inductive monitor_status :=
| Returned
| StillRunning
| Escaped (e : py_exc).

Definition banner (s : session) : trace :=
  [EPrint "🔌 FCSP State Monitor";
   EPrint ("📡 Polling every " +:+ str_int (poll_interval s) +:+ " seconds");
   EPrint "🎯 Press Ctrl+C to stop";
   EPrint "==================================================";
   EPrint "🔍 Getting initial state..."].

Definition initial_report (initial_state : py_value) : trace :=
  let initial_info := state_info initial_state in
  [EPrint ("📊 Initial state: " +:+ icon initial_info +:+ " " +:+ py_str initial_state
           +:+ " - " +:+ name initial_info);
   EPrint ("🔄 Starting monitoring loop..." +:+ newline)].

Definition monitor (s : session) (initial : device_world) (cycles : list cycle)
    : session * trace * monitor_status :=
  let s0 := set_running s true in
  let '(s1, t1) := deliver (w_signal initial) s0 in
  let '(t2, r) := get_current_state initial in
  let t := banner s ++ EPoll :: t1 ++ t2 in
  match r with
  | Raises e => (s1, t, Escaped e)
  | Returns (None, _) =>
      (s1, t ++ [EPrint "❌ Failed to get initial state. Exiting."], Returned)
  | Returns (Some st, initial_inverters) =>
      let s2 := set_previous s1 (Some st) initial_inverters in
      let '(s3, t3, status) := while_running s2 cycles in
      match status with
      | LoopExited =>
          (s3, t ++ initial_report (Some st) ++ t3
                 ++ [EPrint (newline +:+ "👋 Monitoring stopped")], Returned)
      | LoopRunning => (s3, t ++ initial_report (Some st) ++ t3, StillRunning)
      end
  end.

(** How the process ends. *)
Inductive process_status :=
| Exit (code : Z)
| Uncaught (e : py_exc)
| Alive.

(** What the environment does during a whole run. *)
Record environment := Environment {
  env_registration : option py_exc;
  env_initial : device_world;
  env_cycles : list cycle
}.

(** [main] with [--interval interval]: [except Exception] prints and
    calls [sys.exit(1)]; a normal return of [main] ends the process
    with status 0. *)
Definition main (interval : Z) (env : environment) : trace * process_status :=
  match __init__ interval (env_registration env) with
  | Raises (Exc msg) => ([EPrint ("❌ Failed to start monitor: " +:+ msg)], Exit 1)
  | Raises KeyboardInterrupt => ([], Uncaught KeyboardInterrupt)
  | Returns s =>
      match monitor s (env_initial env) (env_cycles env) with
      | (_, t, Returned) => (t, Exit 0)
      | (_, t, StillRunning) => (t, Alive)
      | (_, t, Escaped (Exc msg)) =>
          (t ++ [EPrint ("❌ Failed to start monitor: " +:+ msg)], Exit 1)
      | (_, t, Escaped KeyboardInterrupt) => (t, Uncaught KeyboardInterrupt)
      end
  end.

(** The polls of a trace, and the polls made by the loop: all but the
    initial fetch. *)
Definition is_poll (e : event) : bool :=
  match e with
  | EPoll => true
  | _ => false
  end.

Definition polls (t : trace) : nat := length (List.filter is_poll t).

Definition is_sleep (e : event) : bool :=
  match e with
  | ESleep _ => true
  | _ => false
  end.

Definition sleeps (t : trace) : nat := length (List.filter is_sleep t).


(** Where a fetch can fail with an exception [e] of class [Exception],
    [msg] being [str(e)]: entering the connection, either request,
    either extraction, or leaving the connection. *)
Inductive fetch_failure (w : device_world) (msg : string) : Prop :=
| fail_enter :
    w_enter w = Some (Exc msg) -> fetch_failure w msg
| fail_charger_info :
    w_enter w = None -> w_exit w = None ->
    w_charger_info w = Raises (Exc msg) -> fetch_failure w msg
| fail_inverter_info ci :
    w_enter w = None -> w_exit w = None ->
    w_charger_info w = Returns ci ->
    w_inverter_info w = Raises (Exc msg) -> fetch_failure w msg
| fail_device_state ci ii :
    w_enter w = None -> w_exit w = None ->
    w_charger_info w = Returns ci -> w_inverter_info w = Returns ii ->
    get_state ci = Raises (Exc msg) -> fetch_failure w msg
| fail_inverter_states ci ii st :
    w_enter w = None -> w_exit w = None ->
    w_charger_info w = Returns ci -> w_inverter_info w = Returns ii ->
    get_state ci = Returns st ->
    for_each get_state ii = Raises (Exc msg) -> fetch_failure w msg
| fail_exit :
    w_enter w = None -> w_exit w = Some (Exc msg) -> fetch_failure w msg.

(** What the loop remembers between polls. *)
Definition same_memory (s s' : session) : Prop :=
  previous_state s' = previous_state s
  ∧ previous_inverter_states s' = previous_inverter_states s
  ∧ poll_interval s' = poll_interval s.

(** The turn gets to its fetch: the sleep is legal, returns, and no
    signal has cleared [running]. *)
Definition reaches_poll (s : session) (c : cycle) : Prop :=
  0 <= poll_interval s ∧ c_sleep c = Slept None ∧ running s = true.

(** The fetch of the turn succeeds with state [st] and inverters [invs]. *)
Definition fetches (c : cycle) (st : string) (invs : list py_value) : Prop :=
  get_current_state (c_world c) = ([], Returns (Some st, Some invs)).

(** The same turn against another answer of the client. *)
Definition with_world (c : cycle) (w : device_world) : cycle :=
  {| c_sleep := c_sleep c;
     c_world := w;
     c_now := c_now c;
     c_recovery_signal := c_recovery_signal c |}.

(** What no turn of the loop does to a session: change the interval, or
    set [running] again once it is cleared. *)
Definition loop_frame (s s' : session) : Prop :=
  poll_interval s' = poll_interval s
  ∧ (running s' = true -> running s = true).

(** The state code the list comprehension of [get_current_state] reads
    off one inverter record that is a [dict]. *)
Definition record_state (i : info) : py_value :=
  match i with
  | InfoDict d => d !! "state"
  | InfoOther _ => None
  end.

Definition is_dict (i : info) : Prop :=
  match i with
  | InfoDict _ => True
  | InfoOther _ => False
  end.

(** A turn in which nobody asks the monitor to stop: no signal is
    delivered and no call raises [KeyboardInterrupt].  Errors of class
    [Exception] are allowed everywhere. *)
Definition calm_world (w : device_world) : Prop :=
  w_signal w = None
  ∧ w_enter w ≠ Some KeyboardInterrupt
  ∧ w_exit w ≠ Some KeyboardInterrupt
  ∧ w_charger_info w ≠ Raises KeyboardInterrupt
  ∧ w_inverter_info w ≠ Raises KeyboardInterrupt.

Definition calm_cycle (c : cycle) : Prop :=
  (c_sleep c = Slept None ∨ exists msg, c_sleep c = SleepRaised (Exc msg))
  ∧ calm_world (c_world c)
  ∧ c_recovery_signal c = None.

(** * The packaging script, [setup.py] *)

Module SetupPy.

(** A Python [str] read from a file, as its code points. *)
Definition text := list N.

(** The text of an ASCII literal. *)
Definition text_of_string (s : string) : text :=
  map N_of_ascii (list_ascii_of_string s).

(** [c.isspace()], the characters [str.strip()] removes: the ASCII
    controls 9-13 and 28-31, the space, and the Unicode spaces. *)
Definition isspace (c : N) : bool :=
  ((9 <=? c) && (c <=? 13) || (28 <=? c) && (c <=? 31) || (c =? 32)
   || (c =? 133) || (c =? 160) || (c =? 5760)
   || (8192 <=? c) && (c <=? 8202)
   || (c =? 8232) || (c =? 8233) || (c =? 8239) || (c =? 8287)
   || (c =? 12288))%N.

Fixpoint lstrip (l : text) : text :=
  match l with
  | [] => []
  | c :: l' => if isspace c then lstrip l' else l
  end.

Definition rstrip (l : text) : text := rev (lstrip (rev l)).

(** [line.strip()]. *)
Definition strip (l : text) : text := rstrip (lstrip l).

(** [line.startswith("#")]. *)
Definition starts_with_hash (l : text) : bool :=
  match l with
  | c :: _ => (c =? 35)%N
  | [] => false
  end.

(** The test of the comprehension: [line.strip() and not
    line.startswith("#")]; a [str] is true when it is not empty. *)
Definition keeps (line : text) : bool :=
  match strip line with
  | [] => false
  | _ :: _ => negb (starts_with_hash line)
  end.

(** [[line.strip() for line in fh if ...]], over the lines the file
    yields. *)
Definition requirement_lines (fh : list text) : list text :=
  map strip (List.filter keeps fh).

(** What the script finds on disk: [README.md] as what [open] and [read]
    give; [requirements.txt] as [None] when [os.path.exists] is false,
    else what opening it and reading its lines gives; and the packages
    [find_packages()] finds. *)
Record files := Files {
  readme_md : outcome text;
  requirements_txt : option (outcome (list text));
  found_packages : list string
}.

Definition read_readme (fs : files) : outcome text := readme_md fs.

Definition read_requirements (fs : files) : outcome (list text) :=
  match requirements_txt fs with
  | Some fh => lines ← fh; Returns (requirement_lines lines)
  | None => Returns []
  end.

(** The keyword arguments of the call of [setup]. *)
Record setup_kwargs := SetupKwargs {
  kw_name : string;
  kw_version : string;
  kw_author : string;
  kw_author_email : string;
  kw_description : string;
  kw_long_description : text;
  kw_long_description_content_type : string;
  kw_url : string;
  kw_packages : list string;
  kw_classifiers : list string;
  kw_python_requires : string;
  kw_install_requires : list text;
  kw_extras_require : gmap string (list string);
  kw_entry_points : gmap string (list string);
  kw_include_package_data : bool;
  kw_zip_safe : bool
}.

(** The module body: the arguments are evaluated in the order written,
    [read_readme()] before [read_requirements()], and an exception in
    either ends the script before [setup] is called. *)
Definition setup_py (fs : files) : outcome setup_kwargs :=
  long_description ← read_readme fs;
  install_requires ← read_requirements fs;
  Returns
    {| kw_name := "fcsp-api";
       kw_version := "0.1.0";
       kw_author := "Your Name";
       kw_author_email := "your.email@example.com";
       kw_description := "A Python library for interacting with Ford Charge Station Pro (FCSP) devices via their REST API";
       kw_long_description := long_description;
       kw_long_description_content_type := "text/markdown";
       kw_url := "https://github.com/yourusername/fcsp-api";
       kw_packages := found_packages fs;
       kw_classifiers :=
         ["Development Status :: 3 - Alpha";
          "Intended Audience :: Developers";
          "License :: OSI Approved :: MIT License";
          "Operating System :: OS Independent";
          "Programming Language :: Python :: 3";
          "Programming Language :: Python :: 3.6";
          "Programming Language :: Python :: 3.7";
          "Programming Language :: Python :: 3.8";
          "Programming Language :: Python :: 3.9";
          "Programming Language :: Python :: 3.10";
          "Programming Language :: Python :: 3.11";
          "Topic :: Home Automation";
          "Topic :: Software Development :: Libraries :: Python Modules"];
       kw_python_requires := ">=3.6";
       kw_install_requires := install_requires;
       kw_extras_require :=
         {[ "dev" := ["pytest>=6.0"; "pytest-cov>=2.0"; "black>=21.0";
                      "flake8>=3.8"; "mypy>=0.800"] ]};
       kw_entry_points :=
         {[ "console_scripts" := ["fcsp-scanner=fcsp_api.scanner:main"] ]};
       kw_include_package_data := true;
       kw_zip_safe := false |}.

(** A [requirements.txt] with a comment, a blank line, two requirements
    and an indented comment. *)
Definition sample_requirements : list text :=
  map text_of_string
    ["# runtime" +:+ newline;
     newline;
     "requests>=2.25  " +:+ newline;
     "  urllib3" +:+ newline;
     "    # pinned later" +:+ newline].

Definition sample_files : files :=
  {| readme_md := Returns (text_of_string "FCSP API");
     requirements_txt := Some (Returns sample_requirements);
     found_packages := ["fcsp_api"] |}.

End SetupPy.

(** ** Sample environments *)

(** The client answers with state [st] and one record per inverter. *)
Definition world_ok (st : string) (invs : list string) : device_world :=
  {| w_enter := None;
     w_charger_info := Returns (InfoDict {[ "state" := st ]});
     w_inverter_info := Returns (map (fun i => InfoDict {[ "state" := i ]}) invs);
     w_exit := None;
     w_signal := None |}.

(** The connection cannot be opened. *)
Definition world_unreachable (msg : string) : device_world :=
  {| w_enter := Some (Exc msg);
     w_charger_info := Returns (InfoDict ∅);
     w_inverter_info := Returns [];
     w_exit := None;
     w_signal := None |}.

(** The charger record has no ['state'] field. *)
Definition world_stateless (invs : list string) : device_world :=
  {| w_enter := None;
     w_charger_info := Returns (InfoDict {[ "model" := "FCSP" ]});
     w_inverter_info := Returns (map (fun i => InfoDict {[ "state" := i ]}) invs);
     w_exit := None;
     w_signal := None |}.

Definition quiet_cycle (w : device_world) : cycle :=
  {| c_sleep := Slept None;
     c_world := w;
     c_now := "2024-05-01 12:00:00";
     c_recovery_signal := None |}.

Definition faulty_sleep_cycle (msg : string) : cycle :=
  {| c_sleep := SleepRaised (Exc msg);
     c_world := world_ok "CS00" [];
     c_now := "2024-05-01 12:00:00";
     c_recovery_signal := None |}.

Definition env_unreachable : environment :=
  {| env_registration := None;
     env_initial := world_unreachable "Connection refused";
     env_cycles := [quiet_cycle (world_ok "CS00" [])] |}.

Definition env_available : environment :=
  {| env_registration := None;
     env_initial := world_ok "CS00" [];
     env_cycles := [quiet_cycle (world_ok "CS00" []);
                    quiet_cycle (world_ok "CS02" ["charging"])] |}.



(** Three inverter records, the second without a ['state'] field. *)
Definition inverter_records : list info :=
  [InfoDict {[ "state" := "standby" ]};
   InfoDict {[ "serial" := "A7" ]};
   InfoDict {[ "state" := "charging" ]}].

Definition world_three_inverters : device_world :=
  {| w_enter := None;
     w_charger_info := Returns (InfoDict {[ "state" := "CS02" ]});
     w_inverter_info := Returns inverter_records;
     w_exit := None;
     w_signal := None |}.

Definition session_available : session :=
  {| poll_interval := 30;
     previous_state := Some "CS00";
     previous_inverter_states := Some [];
     running := true |}.

(** * Properties *)

(** ** The catalog and the report *)

Lemma DEVICE_STATES_keys (code : string) :
  DEVICE_STATES !! code = None <->
  code ≠ "CS00" ∧ code ≠ "CS01" ∧ code ≠ "CS02" ∧ code ≠ "CS03".
Proof.
  unfold DEVICE_STATES. cbn [list_to_map foldr uncurry curry fst snd].
  rewrite !lookup_insert_None, lookup_empty. intuition congruence.
Qed.

(** C6: a state code that is not a key of the catalog resolves to the
    fallback descriptor, whose name is "Unknown (<code>)" and whose icon is
    the question mark; the lookup is a total function, so it answers for
    every code. *)
Theorem state_info_unknown (code : string) :
  DEVICE_STATES !! code = None ->
  state_info (Some code)
  = {| name := "Unknown (" +:+ code +:+ ")"; description := None; icon := "❓" |}.
Proof.
  intros Hnone. unfold state_info. rewrite Hnone. reflexivity.
Qed.

Lemma state_info_unknown_witness :
  DEVICE_STATES !! "CS99" = None
  ∧ state_info (Some "CS99")
    = {| name := "Unknown (CS99)"; description := None; icon := "❓" |}.
Proof.
  split; [vm_compute; reflexivity |].
  apply (state_info_unknown "CS99"). vm_compute. reflexivity.
Defined.

Lemma state_info_known (code : string) (d : descriptor) :
  DEVICE_STATES !! code = Some d -> state_info (Some code) = d.
Proof. intros H. unfold state_info. rewrite H. reflexivity. Qed.






(** ** Fetching *)

(** The three ways [get_current_state] can end. *)
Lemma get_current_state_cases (w : device_world) :
  (exists d i, get_current_state w = ([], Returns (d, Some i)))
  ∨ (exists msg, get_current_state w
       = ([EPrint ("❌ Error getting state: " +:+ msg)], Returns (None, None)))
  ∨ get_current_state w = ([], Raises KeyboardInterrupt).
Proof.
  unfold get_current_state.
  destruct (with_fcsp w (fetch_body w)) as [[d i] | [msg |]]; eauto.
Qed.

(** No instance of [Exception] leaves [get_current_state]. *)
Lemma get_current_state_catches (w : device_world) (t : trace) (msg : string) :
  get_current_state w ≠ (t, Raises (Exc msg)).
Proof.
  destruct (get_current_state_cases w) as [(d & i & H) | [(m & H) | H]];
    rewrite H; discriminate.
Qed.

(** A fetch prints at most its own error line: it neither polls nor
    sleeps. *)
Lemma get_current_state_trace (w : device_world) :
  polls (get_current_state w).1 = 0%nat ∧ sleeps (get_current_state w).1 = 0%nat.
Proof.
  destruct (get_current_state_cases w) as [(d & i & H) | [(m & H) | H]];
    rewrite H; split; reflexivity.
Qed.

(** A device state that is present comes with an inverter list. *)
Lemma get_current_state_some (w : device_world) t st inv :
  get_current_state w = (t, Returns (Some st, inv)) ->
  t = [] ∧ exists invs, inv = Some invs.
Proof.
  destruct (get_current_state_cases w) as [(d & i & H) | [(m & H) | H]];
    rewrite H; intros [= <- ? ?]; subst; eauto.
Qed.

(** The [except Exception] clause of [get_current_state], step by step. *)
Lemma fetch_failure_marker (w : device_world) (msg : string) :
  fetch_failure w msg ->
  get_current_state w
  = ([EPrint ("❌ Error getting state: " +:+ msg)], Returns (None, None)).
Proof.
  intros Hfail. unfold get_current_state, with_fcsp, fetch_body.
  destruct Hfail as [He | He Hx Hc | ci He Hx Hc Hi | ci ii He Hx Hc Hi Hs
                    | ci ii st He Hx Hc Hi Hs Hf | He Hx].
  - rewrite He. reflexivity.
  - rewrite He, Hx, Hc. reflexivity.
  - rewrite He, Hx, Hc, Hi. reflexivity.
  - rewrite He, Hx, Hc, Hi. cbn. rewrite Hs. reflexivity.
  - rewrite He, Hx, Hc, Hi. cbn. rewrite Hs. cbn. rewrite Hf. reflexivity.
  - rewrite He, Hx. reflexivity.
Qed.

(** C9: whichever step of the fetch raises an error (opening the
    connection, asking for the charger or the inverter records, reading a
    state code, closing the connection), [get_current_state] prints its
    message and returns the marker [(None, None)]: it returns, and what it
    returns is not an exception. *)
Theorem get_current_state_failure (w : device_world) (msg : string) :
  fetch_failure w msg ->
  get_current_state w
  = ([EPrint ("❌ Error getting state: " +:+ msg)], Returns (None, None))
  ∧ (forall e, (get_current_state w).2 ≠ Raises e).
Proof.
  intros Hfail. rewrite (fetch_failure_marker w msg Hfail).
  split; [reflexivity | discriminate].
Qed.

Lemma get_current_state_failure_witness :
  fetch_failure (world_unreachable "Connection refused") "Connection refused"
  ∧ get_current_state (world_unreachable "Connection refused")
    = ([EPrint "❌ Error getting state: Connection refused"], Returns (None, None))
  ∧ (forall e, (get_current_state (world_unreachable "Connection refused")).2
               ≠ Raises e).
Proof.
  split; [apply fail_enter; reflexivity |].
  apply (get_current_state_failure (world_unreachable "Connection refused")
           "Connection refused").
  apply fail_enter. reflexivity.
Defined.

(** The other failures of the sample worlds: a record that is not a
    [dict], and a connection that fails to close. *)
Example fetch_failure_bad_record :
  get_current_state
    {| w_enter := None;
       w_charger_info := Returns (InfoDict {[ "state" := "CS00" ]});
       w_inverter_info :=
         Returns [InfoDict {[ "state" := "standby" ]};
                  InfoOther "'NoneType' object has no attribute 'get'"];
       w_exit := None;
       w_signal := None |}
  = ([EPrint "❌ Error getting state: 'NoneType' object has no attribute 'get'"],
     Returns (None, None)).
Proof. vm_compute. reflexivity. Qed.

Example fetch_failure_on_close :
  get_current_state
    {| w_enter := None;
       w_charger_info := Returns (InfoDict {[ "state" := "CS00" ]});
       w_inverter_info := Returns [];
       w_exit := Some (Exc "logout failed");
       w_signal := None |}
  = ([EPrint "❌ Error getting state: logout failed"], Returns (None, None)).
Proof. vm_compute. reflexivity. Qed.

(** A fetch in which no step raises returns what it read. *)
Lemma get_current_state_success (w : device_world) ci ii st invs :
  w_enter w = None -> w_exit w = None ->
  w_charger_info w = Returns ci -> w_inverter_info w = Returns ii ->
  get_state ci = Returns st -> for_each get_state ii = Returns invs ->
  get_current_state w = ([], Returns (st, Some invs)).
Proof.
  intros He Hx Hc Hi Hs Hf. unfold get_current_state, with_fcsp, fetch_body.
  rewrite He, Hx, Hc, Hi. cbn. rewrite Hs. cbn. rewrite Hf. reflexivity.
Qed.

(** ** What one turn of the loop keeps *)

Lemma same_memory_refl (s : session) : same_memory s s.
Proof. repeat split. Qed.

Lemma same_memory_trans (s1 s2 s3 : session) :
  same_memory s1 s2 -> same_memory s2 s3 -> same_memory s1 s3.
Proof. unfold same_memory. intros (-> & -> & ->) (-> & -> & ->). repeat split. Qed.

Lemma same_memory_set_running (s s' : session) :
  same_memory s s' -> s' = set_running s (running s').
Proof.
  destruct s, s'. unfold same_memory, set_running. cbn.
  intros (-> & -> & ->). reflexivity.
Qed.

Lemma deliver_memory (sig : option Z) (s : session) :
  same_memory s (deliver sig s).1.
Proof. destruct sig; repeat split. Qed.

Lemma deliver_trace (sig : option Z) (s : session) :
  polls (deliver sig s).2 = 0%nat ∧ sleeps (deliver sig s).2 = 0%nat.
Proof. destruct sig; split; reflexivity. Qed.

Lemma deliver_set_running (sig : option Z) (s : session) (r : bool) :
  (deliver sig (set_running s r)).2 = (deliver sig s).2
  ∧ same_memory (deliver sig s).1 (deliver sig (set_running s r)).1.
Proof. destruct sig; repeat split. Qed.

Lemma time_sleep_memory (secs : Z) (o : sleep_outcome) (s : session) :
  same_memory s (time_sleep secs o s).1.1.
Proof.
  unfold time_sleep. destruct (secs <? 0); [apply same_memory_refl |].
  destruct o as [sig |]; [| apply same_memory_refl].
  pose proof (deliver_memory sig s) as H.
  destruct (deliver sig s) as [s' t]. exact H.
Qed.

(** [check_for_changes] writes the new values when they differ from the
    remembered ones, and nothing otherwise: either way the session then
    remembers the values just read. *)
Lemma check_for_changes_previous (s : session) now st inv :
  previous_state (check_for_changes s now st inv).1 = st
  ∧ previous_inverter_states (check_for_changes s now st inv).1 = inv
  ∧ poll_interval (check_for_changes s now st inv).1 = poll_interval s
  ∧ running (check_for_changes s now st inv).1 = running s.
Proof.
  unfold check_for_changes, state_changed.
  destruct (bool_decide_reflect (st ≠ previous_state s)) as [H1 | H1];
    [cbn; repeat split |].
  destruct (bool_decide_reflect (inv ≠ previous_inverter_states s)) as [H2 | H2];
    cbn; repeat split.
  - destruct (decide (st = previous_state s)); [congruence | contradiction].
  - destruct (decide (inv = previous_inverter_states s)); [congruence | contradiction].
Qed.

(** Equal values are never reported. *)
Lemma check_for_changes_unchanged (s : session) now :
  check_for_changes s now (previous_state s) (previous_inverter_states s) = (s, []).
Proof.
  unfold check_for_changes, state_changed.
  rewrite !bool_decide_eq_false_2; [reflexivity | |]; intros H; apply H; reflexivity.
Qed.

Lemma check_for_changes_set_running (s : session) (r : bool) now st inv :
  (check_for_changes (set_running s r) now st inv).2 = (check_for_changes s now st inv).2
  ∧ same_memory (check_for_changes s now st inv).1
      (check_for_changes (set_running s r) now st inv).1.
Proof.
  unfold check_for_changes, state_changed. cbn.
  destruct (bool_decide (st ≠ previous_state s)
            || bool_decide (inv ≠ previous_inverter_states s)); repeat split.
Qed.

(** [poll], [try_body] and [loop_body] written with projections. *)
Lemma poll_unfold (s : session) (c : cycle) :
  poll s c =
  let d := deliver (w_signal (c_world c)) s in
  let g := get_current_state (c_world c) in
  match g.2 with
  | Raises e => (d.1, EPoll :: d.2 ++ g.1, Raises e)
  | Returns (None, _) => (d.1, EPoll :: d.2 ++ g.1, Returns Next)
  | Returns (Some st, inv) =>
      let k := check_for_changes d.1 (c_now c) (Some st) inv in
      (k.1, EPoll :: d.2 ++ g.1 ++ k.2, Returns Next)
  end.
Proof.
  unfold poll. destruct (deliver (w_signal (c_world c)) s) as [s1 t1].
  destruct (get_current_state (c_world c)) as [t2 [[[st |] inv] | e]]; cbn;
    try reflexivity.
  destruct (check_for_changes s1 (c_now c) (Some st) inv); reflexivity.
Qed.

Lemma try_body_unfold (s : session) (c : cycle) :
  try_body s c =
  let z := time_sleep (poll_interval s) (c_sleep c) s in
  match z.2 with
  | Raises e => (z.1.1, z.1.2, Raises e)
  | Returns _ =>
      if negb (running z.1.1) then (z.1.1, z.1.2, Returns Break)
      else let p := poll z.1.1 c in (p.1.1, z.1.2 ++ p.1.2, p.2)
  end.
Proof.
  unfold try_body.
  destruct (time_sleep (poll_interval s) (c_sleep c) s) as [[s1 t1] [u | e]]; cbn;
    try reflexivity.
  destruct (negb (running s1)); [reflexivity |].
  destruct (poll s1 c) as [[s2 t2] r]; reflexivity.
Qed.

Lemma loop_body_unfold (s : session) (c : cycle) :
  loop_body s c =
  let b := try_body s c in
  match b.2 with
  | Returns ctl => (b.1.1, b.1.2, ctl)
  | Raises KeyboardInterrupt => (b.1.1, b.1.2, Break)
  | Raises (Exc msg) =>
      let d := deliver (c_recovery_signal c) b.1.1 in
      (d.1,
       b.1.2 ++ [EPrint ("❌ Unexpected error in monitoring loop: " +:+ msg);
                 ESleep recovery_delay] ++ d.2,
       Next)
  end.
Proof.
  unfold loop_body. destruct (try_body s c) as [[s1 t1] [ctl | [msg |]]]; cbn;
    try reflexivity.
  destruct (deliver (c_recovery_signal c) s1); reflexivity.
Qed.

(** A fetch that returns no device state leaves the memory alone. *)
Lemma poll_failed (s : session) (c : cycle) t inv :
  get_current_state (c_world c) = (t, Returns (None, inv)) ->
  poll s c = ((deliver (w_signal (c_world c)) s).1,
              EPoll :: (deliver (w_signal (c_world c)) s).2 ++ t,
              Returns Next).
Proof. intros H. rewrite poll_unfold, H. reflexivity. Qed.

Lemma poll_success (s : session) (c : cycle) st invs :
  fetches c st invs ->
  poll s c =
  let d := deliver (w_signal (c_world c)) s in
  let k := check_for_changes d.1 (c_now c) (Some st) (Some invs) in
  (k.1, EPoll :: d.2 ++ k.2, Returns Next).
Proof. unfold fetches. intros H. rewrite poll_unfold, H. reflexivity. Qed.

(** After a successful fetch the session remembers what was read. *)
Lemma poll_success_previous (s : session) (c : cycle) st invs :
  fetches c st invs ->
  previous_state (poll s c).1.1 = Some st
  ∧ previous_inverter_states (poll s c).1.1 = Some invs.
Proof.
  intros H. rewrite (poll_success _ _ _ _ H). cbn.
  destruct (check_for_changes_previous (deliver (w_signal (c_world c)) s).1
              (c_now c) (Some st) (Some invs)) as (H1 & H2 & _).
  split; assumption.
Qed.

(** No path through [poll] forgets the device state. *)
Lemma poll_initialized (s : session) (c : cycle) :
  is_Some (previous_state s) -> is_Some (previous_state (poll s c).1.1).
Proof.
  intros Hs. rewrite poll_unfold.
  pose proof (deliver_memory (w_signal (c_world c)) s) as (Hd & _).
  destruct (get_current_state (c_world c)) as [t2 [[[st |] inv] | e]]; cbn;
    try (rewrite Hd; exact Hs).
  destruct (check_for_changes_previous (deliver (w_signal (c_world c)) s).1
              (c_now c) (Some st) inv) as (H1 & _).
  rewrite H1. eauto.
Qed.

(** The comparison of a poll does not read [running]. *)
Lemma poll_set_running (s : session) (r : bool) (c : cycle) :
  (poll (set_running s r) c).1.2 = (poll s c).1.2
  ∧ (poll (set_running s r) c).2 = (poll s c).2
  ∧ same_memory (poll s c).1.1 (poll (set_running s r) c).1.1.
Proof.
  rewrite !poll_unfold.
  destruct (deliver_set_running (w_signal (c_world c)) s r) as (Ht & Hm).
  destruct (get_current_state (c_world c)) as [t2 [[[st |] inv] | e]]; cbn;
    rewrite ?Ht; try (repeat split; apply Hm).
  apply same_memory_set_running in Hm. rewrite Hm.
  destruct (check_for_changes_set_running (deliver (w_signal (c_world c)) s).1
              (running (deliver (w_signal (c_world c)) (set_running s r)).1)
              (c_now c) (Some st) inv) as (Hk & Hkm).
  rewrite Hk. repeat split; apply Hkm.
Qed.

(** [previous_state] stays present over every turn of the loop: a
    change, no change, a failed fetch, an unexpected error, a signal. *)
Lemma loop_body_initialized (s : session) (c : cycle) :
  is_Some (previous_state s) -> is_Some (previous_state (loop_body s c).1.1).
Proof.
  intros Hs.
  assert (Hb : is_Some (previous_state (try_body s c).1.1)).
  { rewrite try_body_unfold.
    pose proof (time_sleep_memory (poll_interval s) (c_sleep c) s) as (Hz & _).
    destruct (time_sleep (poll_interval s) (c_sleep c) s) as [[s1 t1] [u | e]];
      cbn in *; [| rewrite Hz; exact Hs].
    destruct (negb (running s1)); cbn; [rewrite Hz; exact Hs |].
    apply poll_initialized. rewrite Hz. exact Hs. }
  rewrite loop_body_unfold.
  destruct (try_body s c) as [[s1 t1] [ctl | [msg |]]]; cbn in *; try exact Hb.
  pose proof (deliver_memory (c_recovery_signal c) s1) as (Hd & _).
  rewrite Hd. exact Hb.
Qed.

Lemma while_running_initialized (cycles : list cycle) (s : session) :
  is_Some (previous_state s) ->
  is_Some (previous_state (while_running s cycles).1.1).
Proof.
  revert s. induction cycles as [| c cycles IH]; intros s Hs; cbn.
  - destruct (negb (running s)); exact Hs.
  - destruct (negb (running s)); [exact Hs |].
    pose proof (loop_body_initialized s c Hs) as Hb.
    destruct (loop_body s c) as [[s1 t1] [|]]; cbn in *; [| exact Hb].
    specialize (IH s1 Hb).
    destruct (while_running s1 cycles) as [[s2 t2] st]. exact IH.
Qed.

(** A turn that gets to its fetch: the sleep, then [poll]. *)
Lemma loop_body_reaches_poll (s : session) (c : cycle) :
  reaches_poll s c ->
  (poll s c).2 = Returns Next ->
  loop_body s c = ((poll s c).1.1, ESleep (poll_interval s) :: (poll s c).1.2, Next).
Proof.
  intros (Hpos & Hsleep & Hrun) Hnext.
  rewrite loop_body_unfold, try_body_unfold. unfold time_sleep.
  rewrite Hsleep. destruct (Z.ltb_spec (poll_interval s) 0) as [? | _]; [lia |].
  cbn. rewrite Hrun. cbn. rewrite Hnext. reflexivity.
Qed.

(** A turn whose fetch gives no device state writes nothing to the
    memory of the session, wherever the turn ends. *)
Lemma loop_body_failed_memory (s : session) (c : cycle) t inv :
  get_current_state (c_world c) = (t, Returns (None, inv)) ->
  same_memory s (loop_body s c).1.1.
Proof.
  intros Hfail.
  assert (Hb : same_memory s (try_body s c).1.1).
  { rewrite try_body_unfold.
    pose proof (time_sleep_memory (poll_interval s) (c_sleep c) s) as Hz.
    destruct (time_sleep (poll_interval s) (c_sleep c) s) as [[s1 t1] [u | e]];
      cbn in *; [| exact Hz].
    destruct (negb (running s1)); cbn; [exact Hz |].
    rewrite (poll_failed _ _ _ _ Hfail). cbn.
    eapply same_memory_trans; [exact Hz | apply deliver_memory]. }
  rewrite loop_body_unfold.
  destruct (try_body s c) as [[s1 t1] [ctl | [msg |]]]; cbn in *; try exact Hb.
  eapply same_memory_trans; [exact Hb | apply deliver_memory].
Qed.

(** ** The claims about the loop *)

(** C2: when two consecutive turns both fetch successfully and read the
    same device state and the same inverter list, the second turn prints no
    change report (its trace is the sleep, the poll and the notice of a
    signal, if one came) and leaves [previous_state] and
    [previous_inverter_states] as they were. *)
Theorem unchanged_poll_is_silent (s : session) (c1 c2 : cycle)
    (st : string) (invs : list py_value) :
  reaches_poll s c1 -> fetches c1 st invs ->
  reaches_poll (loop_body s c1).1.1 c2 -> fetches c2 st invs ->
  loop_body (loop_body s c1).1.1 c2
  = ((deliver (w_signal (c_world c2)) (loop_body s c1).1.1).1,
     ESleep (poll_interval s) :: EPoll
       :: (deliver (w_signal (c_world c2)) (loop_body s c1).1.1).2,
     Next)
  ∧ same_memory (loop_body s c1).1.1 (loop_body (loop_body s c1).1.1 c2).1.1.
Proof.
  intros Hr1 Hf1 Hr2 Hf2.
  assert (Hn1 : (poll s c1).2 = Returns Next)
    by (rewrite (poll_success _ _ _ _ Hf1); reflexivity).
  rewrite (loop_body_reaches_poll s c1 Hr1 Hn1) in *. cbn [fst snd] in *.
  destruct (poll_success_previous s c1 st invs Hf1) as (Hp1 & Hp2).
  set (s1 := (poll s c1).1.1) in *.
  assert (Hi : poll_interval s1 = poll_interval s).
  { unfold s1. rewrite (poll_success _ _ _ _ Hf1). cbn.
    destruct (check_for_changes_previous (deliver (w_signal (c_world c1)) s).1
                (c_now c1) (Some st) (Some invs)) as (_ & _ & Hk & _).
    rewrite Hk. apply (deliver_memory (w_signal (c_world c1)) s). }
  assert (Hpoll : poll s1 c2
            = ((deliver (w_signal (c_world c2)) s1).1,
               EPoll :: (deliver (w_signal (c_world c2)) s1).2, Returns Next)).
  { rewrite (poll_success _ _ _ _ Hf2). cbn.
    destruct (deliver_memory (w_signal (c_world c2)) s1) as (Hd1 & Hd2 & _).
    rewrite <- Hp1, <- Hp2, <- Hd1, <- Hd2.
    rewrite check_for_changes_unchanged. cbn. rewrite app_nil_r. reflexivity. }
  rewrite (loop_body_reaches_poll s1 c2 Hr2) by (rewrite Hpoll; reflexivity).
  rewrite Hpoll, Hi. cbn. split; [reflexivity |].
  apply deliver_memory.
Qed.

Lemma unchanged_poll_is_silent_witness :
  loop_body (loop_body session_available
               (quiet_cycle (world_ok "CS02" ["charging"]))).1.1
            (quiet_cycle (world_ok "CS02" ["charging"]))
  = ({| poll_interval := 30;
        previous_state := Some "CS02";
        previous_inverter_states := Some [Some "charging"];
        running := true |},
     [ESleep 30; EPoll], Next).
Proof.
  refine (eq_trans
    (proj1 (unchanged_poll_is_silent session_available
              (quiet_cycle (world_ok "CS02" ["charging"]))
              (quiet_cycle (world_ok "CS02" ["charging"]))
              "CS02" [Some "charging"] _ _ _ _)) _).
  - repeat split; cbn; lia.
  - vm_compute. reflexivity.
  - repeat split; vm_compute; congruence.
  - vm_compute. reflexivity.
  - vm_compute. reflexivity.
Defined.

(** C3: a turn whose fetch gives no device state (the failure marker)
    leaves [previous_state] and [previous_inverter_states] exactly as they
    were, and the poll that follows prints what it would have printed
    without the failed turn and remembers the same values: it is compared
    with the values from before the failure. *)
Theorem failed_fetch_keeps_previous (s : session) (c c' : cycle)
    (t : trace) (inv : inverter_list) :
  get_current_state (c_world c) = (t, Returns (None, inv)) ->
  same_memory s (loop_body s c).1.1
  ∧ (poll (loop_body s c).1.1 c').1.2 = (poll s c').1.2
  ∧ same_memory (poll s c').1.1 (poll (loop_body s c).1.1 c').1.1.
Proof.
  intros Hfail.
  pose proof (loop_body_failed_memory s c t inv Hfail) as Hm.
  split; [exact Hm |].
  rewrite (same_memory_set_running _ _ Hm).
  destruct (poll_set_running s (running (loop_body s c).1.1) c') as (H1 & _ & H3).
  split; assumption.
Qed.

Lemma failed_fetch_keeps_previous_witness :
  same_memory session_available
    (loop_body session_available (quiet_cycle (world_unreachable "timed out"))).1.1
  ∧ (poll (loop_body session_available
             (quiet_cycle (world_unreachable "timed out"))).1.1
          (quiet_cycle (world_ok "CS02" ["charging"]))).1.2
    = (poll session_available (quiet_cycle (world_ok "CS02" ["charging"]))).1.2
  ∧ same_memory
      (poll session_available (quiet_cycle (world_ok "CS02" ["charging"]))).1.1
      (poll (loop_body session_available
               (quiet_cycle (world_unreachable "timed out"))).1.1
            (quiet_cycle (world_ok "CS02" ["charging"]))).1.1.
Proof.
  apply (failed_fetch_keeps_previous session_available
           (quiet_cycle (world_unreachable "timed out"))
           (quiet_cycle (world_ok "CS02" ["charging"]))
           [EPrint "❌ Error getting state: timed out"] None).
  vm_compute. reflexivity.
Defined.

(** C4: once the initial fetch has given a device state, the session
    that [monitor] holds has a [previous_state] that is present, however
    many turns the loop has made and whatever happened in them. *)
Theorem previous_state_never_absent (s : session) (initial : device_world)
    (cycles : list cycle) (t : trace) (st : string) (inv : inverter_list) :
  get_current_state initial = (t, Returns (Some st, inv)) ->
  is_Some (previous_state (monitor s initial cycles).1.1).
Proof.
  intros Hinit. unfold monitor.
  destruct (deliver (w_signal initial) (set_running s true)) as [s1 t1].
  rewrite Hinit.
  pose proof (while_running_initialized cycles
                (set_previous s1 (Some st) inv)) as Hloop.
  destruct (while_running (set_previous s1 (Some st) inv) cycles)
    as [[s3 t3] status].
  destruct status; cbn in *; apply Hloop; eauto.
Qed.

Lemma previous_state_never_absent_witness :
  is_Some (previous_state
    (monitor session_available (env_initial env_available)
       (env_cycles env_available)).1.1).
Proof.
  apply (previous_state_never_absent session_available
           (env_initial env_available) (env_cycles env_available)
           [] "CS00" (Some [])).
  vm_compute. reflexivity.
Defined.

(** C10: when no step of the fetch raises and the charger record has
    no ['state'] field, [get_current_state] returns [None] with the
    inverter list it read and prints nothing; the loop then does what it
    does on a failed fetch: the turn ends there, the memory of the session
    is kept, and the trace of the poll has neither a change report nor an
    error line. *)
Theorem missing_state_skips_cycle (s : session) (c : cycle)
    (d : gmap string string) (ii : list info) (invs : list py_value)
    (w' : device_world) (msg : string) :
  w_enter (c_world c) = None -> w_exit (c_world c) = None ->
  w_charger_info (c_world c) = Returns (InfoDict d) ->
  d !! "state" = None ->
  w_inverter_info (c_world c) = Returns ii ->
  for_each get_state ii = Returns invs ->
  fetch_failure w' msg -> w_signal w' = w_signal (c_world c) ->
  get_current_state (c_world c) = ([], Returns (None, Some invs))
  ∧ poll s c = ((deliver (w_signal (c_world c)) s).1,
                EPoll :: (deliver (w_signal (c_world c)) s).2,
                Returns Next)
  ∧ same_memory s (loop_body s c).1.1
  ∧ (poll s (with_world c w')).1.1 = (poll s c).1.1
  ∧ (poll s (with_world c w')).2 = (poll s c).2.
Proof.
  intros He Hx Hc Hd Hi Hf Hfail Hsig.
  assert (Hg : get_current_state (c_world c) = ([], Returns (None, Some invs))).
  { apply (get_current_state_success _ (InfoDict d) ii); try assumption.
    cbn. rewrite Hd. reflexivity. }
  assert (Hp : poll s c = ((deliver (w_signal (c_world c)) s).1,
                           EPoll :: (deliver (w_signal (c_world c)) s).2,
                           Returns Next)).
  { rewrite (poll_failed _ _ _ _ Hg), app_nil_r. reflexivity. }
  split; [exact Hg |]. split; [exact Hp |].
  split; [apply (loop_body_failed_memory s c [] (Some invs) Hg) |].
  rewrite Hp.
  rewrite (poll_failed s (with_world c w') _ None
             (fetch_failure_marker w' msg Hfail)).
  cbn. rewrite Hsig. split; reflexivity.
Qed.

Lemma missing_state_skips_cycle_witness :
  get_current_state (world_stateless ["standby"])
  = ([], Returns (None, Some [Some "standby"]))
  ∧ poll session_available (quiet_cycle (world_stateless ["standby"]))
    = (session_available, [EPoll], Returns Next).
Proof.
  destruct (missing_state_skips_cycle session_available
              (quiet_cycle (world_stateless ["standby"]))
              {[ "model" := "FCSP" ]}
              [InfoDict {[ "state" := "standby" ]}]
              [Some "standby"]
              (world_unreachable "timed out") "timed out")
    as (H1 & H2 & _).
  - reflexivity.
  - reflexivity.
  - reflexivity.
  - vm_compute. reflexivity.
  - reflexivity.
  - vm_compute. reflexivity.
  - apply fail_enter. reflexivity.
  - reflexivity.
  - split; [exact H1 | exact H2].
Defined.

(** ** Startup and exit status *)

Lemma polls_app (t1 t2 : trace) : polls (t1 ++ t2) = (polls t1 + polls t2)%nat.
Proof. unfold polls. rewrite List.filter_app, length_app. reflexivity. Qed.

Lemma sleeps_app (t1 t2 : trace) : sleeps (t1 ++ t2) = (sleeps t1 + sleeps t2)%nat.
Proof. unfold sleeps. rewrite List.filter_app, length_app. reflexivity. Qed.

(** The claim of C1 does not hold: with the connection refused at
    startup the process ends with status 0. *)
Lemma initial_fetch_failure_nonzero_counterexample :
  ¬ (forall (interval : Z) (env : environment) (t : trace) (inv : inverter_list),
       env_registration env = None ->
       get_current_state (env_initial env) = (t, Returns (None, inv)) ->
       exists code, (main interval env).2 = Exit code ∧ code ≠ 0).
Proof.
  intros H.
  destruct (H 30 env_unreachable
              [EPrint "❌ Error getting state: Connection refused"] None
              eq_refl eq_refl) as (code & Hexit & Hcode).
  vm_compute in Hexit. congruence.
Qed.

(** C1, amended: when the initial fetch gives no device state, [monitor]
    prints the fatal message and returns, the loop is never entered (the
    trace has the one poll of the initial fetch and no sleep), and the
    process ends with status 0. *)
Theorem initial_fetch_failure_exit (interval : Z) (env : environment)
    (t : trace) (inv : inverter_list) :
  env_registration env = None ->
  get_current_state (env_initial env) = (t, Returns (None, inv)) ->
  (main interval env).2 = Exit 0
  ∧ polls (main interval env).1 = 1%nat
  ∧ sleeps (main interval env).1 = 0%nat
  ∧ last (main interval env).1 = Some (EPrint "❌ Failed to get initial state. Exiting.").
Proof.
  intros Hreg Hinit. unfold main, __init__, monitor. rewrite Hreg.
  pose proof (deliver_trace (w_signal (env_initial env))
                (set_running
                   {| poll_interval := interval; previous_state := None;
                      previous_inverter_states := None; running := false |} true))
    as (Hdp & Hds).
  destruct (deliver _ _) as [s1 t1].
  pose proof (get_current_state_trace (env_initial env)) as (Hgp & Hgs).
  rewrite Hinit in *. cbn [fst snd] in *.
  split; [reflexivity |].
  rewrite !polls_app, !sleeps_app.
  change (EPoll :: t1 ++ t) with ([EPoll] ++ t1 ++ t).
  rewrite !polls_app, !sleeps_app, Hdp, Hds, Hgp, Hgs.
  repeat split. apply last_snoc.
Qed.

Lemma initial_fetch_failure_exit_witness :
  (main 30 env_unreachable).2 = Exit 0
  ∧ polls (main 30 env_unreachable).1 = 1%nat
  ∧ sleeps (main 30 env_unreachable).1 = 0%nat
  ∧ last (main 30 env_unreachable).1
    = Some (EPrint "❌ Failed to get initial state. Exiting.").
Proof.
  apply (initial_fetch_failure_exit 30 env_unreachable
           [EPrint "❌ Error getting state: Connection refused"] None).
  - reflexivity.
  - vm_compute. reflexivity.
Defined.



(** The one construction failure of the model: a failing registration of
    the signal handlers is reported and ends the process with status 1
    before any poll, whatever the interval. *)
Lemma registration_failure_exit (interval : Z) (env : environment) (msg : string) :
  env_registration env = Some (Exc msg) ->
  main interval env = ([EPrint ("❌ Failed to start monitor: " +:+ msg)], Exit 1).
Proof. intros H. unfold main, __init__. rewrite H. reflexivity. Qed.

(** A negative interval is met only in the loop: every turn ends in the
    handler of unexpected errors, without a poll. *)
Lemma negative_interval_turn (s : session) (c : cycle) :
  poll_interval s < 0 ->
  loop_body s c
  = ((deliver (c_recovery_signal c) s).1,
     [EPrint "❌ Unexpected error in monitoring loop: sleep length must be non-negative";
      ESleep recovery_delay] ++ (deliver (c_recovery_signal c) s).2,
     Next).
Proof.
  intros Hneg. rewrite loop_body_unfold, try_body_unfold. unfold time_sleep.
  destruct (Z.ltb_spec (poll_interval s) 0) as [_ | ?]; [| lia].
  reflexivity.
Qed.




(** The claim of C8 does not hold: with a poll interval of five seconds
    or less the recovery delay is not the shorter one. *)
Lemma recovery_delay_shorter_counterexample :
  ¬ (forall s : session, 0 < poll_interval s -> recovery_delay < poll_interval s).
Proof.
  intros H.
  specialize (H {| poll_interval := 5; previous_state := Some "CS00";
                   previous_inverter_states := Some []; running := true |}).
  cbn in H. unfold recovery_delay in H. lia.
Qed.

(** C8, amended: the delay after an unexpected error is five seconds
    whatever the poll interval, so it is the shorter one exactly when the
    interval is above five seconds; after the message and the delay the
    turn ends with the loop going on, from the test of [running]. *)
Theorem recovery_resumes (s s1 : session) (c : cycle) (cycles : list cycle)
    (t1 : trace) (msg : string) :
  0 < poll_interval s ->
  running s = true ->
  try_body s c = (s1, t1, Raises (Exc msg)) ->
  recovery_delay = 5
  ∧ (recovery_delay < poll_interval s <-> 5 < poll_interval s)
  ∧ loop_body s c
    = ((deliver (c_recovery_signal c) s1).1,
       t1 ++ [EPrint ("❌ Unexpected error in monitoring loop: " +:+ msg);
              ESleep 5] ++ (deliver (c_recovery_signal c) s1).2,
       Next)
  ∧ while_running s (c :: cycles)
    = ((while_running (deliver (c_recovery_signal c) s1).1 cycles).1.1,
       (t1 ++ [EPrint ("❌ Unexpected error in monitoring loop: " +:+ msg);
               ESleep 5] ++ (deliver (c_recovery_signal c) s1).2)
       ++ (while_running (deliver (c_recovery_signal c) s1).1 cycles).1.2,
       (while_running (deliver (c_recovery_signal c) s1).1 cycles).2).
Proof.
  intros _ Hrun Htry.
  assert (Hbody : loop_body s c
            = ((deliver (c_recovery_signal c) s1).1,
               t1 ++ [EPrint ("❌ Unexpected error in monitoring loop: " +:+ msg);
                      ESleep 5] ++ (deliver (c_recovery_signal c) s1).2,
               Next)).
  { rewrite loop_body_unfold, Htry. reflexivity. }
  split; [reflexivity |]. split; [reflexivity |]. split; [exact Hbody |].
  cbn [while_running]. rewrite Hrun, Hbody. cbn [negb].
  destruct (while_running (deliver (c_recovery_signal c) s1).1 cycles)
    as [[s2 t2] st].
  reflexivity.
Qed.

Lemma recovery_resumes_witness :
  while_running session_available
    [faulty_sleep_cycle "Interrupted system call"; quiet_cycle (world_ok "CS00" [])]
  = (session_available,
     [EPrint "❌ Unexpected error in monitoring loop: Interrupted system call";
      ESleep 5; ESleep 30; EPoll],
     LoopRunning).
Proof.
  destruct (recovery_resumes session_available session_available
              (faulty_sleep_cycle "Interrupted system call")
              [quiet_cycle (world_ok "CS00" [])]
              [] "Interrupted system call") as (_ & _ & _ & H).
  - cbn. lia.
  - reflexivity.
  - reflexivity.
  - rewrite H. vm_compute. reflexivity.
Defined.

(** ** A run, end to end *)

(** Interval 30, initial state [CS00] with no inverter; the first poll
    reads the same and prints nothing, the second reads [CS02] with one
    inverter and prints the report; the script ends with the loop going. *)
Example run_available_then_charging :
  main 30 env_available
  = ([EPrint "🔌 FCSP State Monitor";
      EPrint "📡 Polling every 30 seconds";
      EPrint "🎯 Press Ctrl+C to stop";
      EPrint "==================================================";
      EPrint "🔍 Getting initial state...";
      EPoll;
      EPrint "📊 Initial state: 🟢 CS00 - Available";
      EPrint ("🔄 Starting monitoring loop..." +:+ newline);
      ESleep 30; EPoll;
      ESleep 30; EPoll;
      EPrint (newline +:+ "🔔 [2024-05-01 12:00:00] STATE CHANGE DETECTED!"
              +:+ newline +:+ "   Device: 🟢 CS00 (Available) → 🔋 CS02 (Charging)"
              +:+ newline +:+ "   Inverters: [] → ['charging']")],
     Alive).
Proof. vm_compute. reflexivity. Qed.

(** A termination signal during the sleep: the loop is left after the
    wake-up, without a poll, and the process ends with status 0. *)
Example run_signal_while_sleeping :
  main 30 {| env_registration := None;
             env_initial := world_ok "CS01" [];
             env_cycles := [ {| c_sleep := Slept (Some 15);
                                c_world := world_ok "CS02" [];
                                c_now := "2024-05-01 12:00:30";
                                c_recovery_signal := None |} ] |}
  = ([EPrint "🔌 FCSP State Monitor";
      EPrint "📡 Polling every 30 seconds";
      EPrint "🎯 Press Ctrl+C to stop";
      EPrint "==================================================";
      EPrint "🔍 Getting initial state...";
      EPoll;
      EPrint "📊 Initial state: 🟡 CS01 - Connected (Not Charging)";
      EPrint ("🔄 Starting monitoring loop..." +:+ newline);
      ESleep 30;
      EPrint (newline +:+ "👋 Received signal 15, shutting down gracefully...");
      EPrint (newline +:+ "👋 Monitoring stopped")],
     Exit 0).
Proof. vm_compute. reflexivity. Qed.

(** * Further properties of the monitor *)

(** ** Signals and the end of the loop *)

Lemma while_running_stopped (s : session) (cycles : list cycle) :
  running s = false -> while_running s cycles = (s, [], LoopExited).
Proof. intros H. destruct cycles; cbn; rewrite H; reflexivity. Qed.

Lemma check_for_changes_trace (s : session) now st inv :
  polls (check_for_changes s now st inv).2 = 0%nat
  ∧ sleeps (check_for_changes s now st inv).2 = 0%nat.
Proof.
  unfold check_for_changes.
  destruct (state_changed s st inv); split; reflexivity.
Qed.

(** A poll is one poll: the fetch and the report add none, and no sleep. *)
Lemma poll_trace (s : session) (c : cycle) :
  exists rest, (poll s c).1.2 = EPoll :: rest
               ∧ polls rest = 0%nat ∧ sleeps rest = 0%nat.
Proof.
  rewrite poll_unfold.
  destruct (deliver_trace (w_signal (c_world c)) s) as (Hdp & Hds).
  destruct (get_current_state_trace (c_world c)) as (Hgp & Hgs).
  destruct (get_current_state (c_world c)) as [t2 [[[st |] inv] | e]];
    cbn [fst snd] in *; eexists; (split; [reflexivity |]);
    rewrite ?polls_app, ?sleeps_app, ?Hdp, ?Hds, ?Hgp, ?Hgs; try (split; reflexivity).
  destruct (check_for_changes_trace (deliver (w_signal (c_world c)) s).1
              (c_now c) (Some st) inv) as (Hkp & Hks).
  rewrite Hkp, Hks. split; reflexivity.
Qed.

(** A poll ends the turn normally, or with a [KeyboardInterrupt]. *)
Lemma poll_result (s : session) (c : cycle) :
  (poll s c).2 = Returns Next ∨ (poll s c).2 = Raises KeyboardInterrupt.
Proof.
  rewrite poll_unfold.
  destruct (get_current_state_cases (c_world c)) as [(d & i & H) | [(m & H) | H]];
    rewrite H; cbn; [destruct d |..]; auto.
Qed.

Lemma poll_running (s : session) (c : cycle) :
  running (poll s c).1.1 = running (deliver (w_signal (c_world c)) s).1.
Proof.
  rewrite poll_unfold.
  destruct (get_current_state (c_world c)) as [t2 [[[st |] inv] | e]]; cbn;
    try reflexivity.
  apply check_for_changes_previous.
Qed.

(** X1: a signal that arrives during the sleep is honoured at the
    wake-up: the handler prints its notice, the turn makes no poll, and the
    loop is left whatever turns the environment still had. *)
Theorem signal_during_sleep_stops (s : session) (c : cycle)
    (cycles : list cycle) (signum : Z) :
  0 <= poll_interval s ->
  running s = true ->
  c_sleep c = Slept (Some signum) ->
  while_running s (c :: cycles)
  = (set_running s false,
     [ESleep (poll_interval s);
      EPrint (newline +:+ "👋 Received signal " +:+ str_int signum
              +:+ ", shutting down gracefully...")],
     LoopExited).
Proof.
  intros Hpos Hrun Hsleep. cbn [while_running]. rewrite Hrun. cbn [negb].
  rewrite loop_body_unfold, try_body_unfold. unfold time_sleep.
  rewrite Hsleep. destruct (Z.ltb_spec (poll_interval s) 0) as [? | _]; [lia |].
  reflexivity.
Qed.

Lemma signal_during_sleep_stops_witness :
  while_running session_available
    [ {| c_sleep := Slept (Some 2);
         c_world := world_ok "CS02" [];
         c_now := "2024-05-01 12:00:30";
         c_recovery_signal := None |};
      quiet_cycle (world_ok "CS03" []) ]
  = (set_running session_available false,
     [ESleep 30;
      EPrint (newline +:+ "👋 Received signal 2, shutting down gracefully...")],
     LoopExited).
Proof.
  apply (signal_during_sleep_stops session_available _ _ 2).
  - cbn. lia.
  - reflexivity.
  - reflexivity.
Defined.

(** X2: a signal that arrives during the fetch does not cut the turn
    short: the poll is made and compared as usual, [running] is cleared,
    and the loop is left at its next test, with no further turn. *)
Theorem signal_during_fetch_finishes_turn (s : session) (c : cycle)
    (cycles : list cycle) (signum : Z) :
  reaches_poll s c ->
  w_signal (c_world c) = Some signum ->
  while_running s (c :: cycles)
  = ((poll s c).1.1, ESleep (poll_interval s) :: (poll s c).1.2, LoopExited)
  ∧ running (poll s c).1.1 = false
  ∧ polls (poll s c).1.2 = 1%nat.
Proof.
  intros (Hpos & Hsleep & Hrun) Hsig.
  assert (Hstop : running (poll s c).1.1 = false)
    by (rewrite poll_running, Hsig; reflexivity).
  split; [| split; [exact Hstop |]].
  - cbn [while_running]. rewrite Hrun. cbn [negb].
    rewrite loop_body_unfold, try_body_unfold. unfold time_sleep.
    rewrite Hsleep. destruct (Z.ltb_spec (poll_interval s) 0) as [? | _]; [lia |].
    cbn. rewrite Hrun. cbn.
    destruct (poll_result s c) as [Hr | Hr]; rewrite Hr; [| reflexivity].
    rewrite (while_running_stopped _ cycles Hstop). cbn.
    rewrite app_nil_r. reflexivity.
  - destruct (poll_trace s c) as (rest & -> & Hp & _).
    change (EPoll :: rest) with ([EPoll] ++ rest). rewrite polls_app, Hp.
    reflexivity.
Qed.

Lemma signal_during_fetch_finishes_turn_witness :
  while_running session_available
    [ {| c_sleep := Slept None;
         c_world := {| w_enter := None;
                       w_charger_info := Returns (InfoDict {[ "state" := "CS02" ]});
                       w_inverter_info := Returns [];
                       w_exit := None;
                       w_signal := Some 15 |};
         c_now := "2024-05-01 12:00:30";
         c_recovery_signal := None |};
      quiet_cycle (world_ok "CS03" []) ]
  = ({| poll_interval := 30;
        previous_state := Some "CS02";
        previous_inverter_states := Some [];
        running := false |},
     [ESleep 30; EPoll;
      EPrint (newline +:+ "👋 Received signal 15, shutting down gracefully...");
      EPrint (newline +:+ "🔔 [2024-05-01 12:00:30] STATE CHANGE DETECTED!"
              +:+ newline +:+ "   Device: 🟢 CS00 (Available) → 🔋 CS02 (Charging)")],
     LoopExited).
Proof.
  refine (eq_trans (proj1 (signal_during_fetch_finishes_turn session_available
                             _ _ 15 _ _)) _).
  - repeat split; cbn; lia.
  - reflexivity.
  - vm_compute. reflexivity.
Defined.

(** ** Reports *)

Lemma check_for_changes_changed (s : session) now st inv :
  st ≠ previous_state s ∨ inv ≠ previous_inverter_states s ->
  check_for_changes s now st inv
  = (set_previous s st inv,
     [EPrint (format_state_change now (previous_state s) st
                (previous_inverter_states s) inv)]).
Proof.
  intros H. unfold check_for_changes, state_changed.
  destruct H as [H | H].
  - rewrite (bool_decide_eq_true_2 _ H). reflexivity.
  - rewrite (bool_decide_eq_true_2 _ H), orb_true_r. reflexivity.
Qed.

(** X3: when two consecutive polls succeed and read different values
    (the device state, the inverter list, or both), the second prints one
    report, whose old values are the values the first poll read and whose
    new values are its own, and the session then remembers the new ones. *)
Theorem change_report_chains (s : session) (c1 c2 : cycle)
    (st1 st2 : string) (inv1 inv2 : list py_value) :
  fetches c1 st1 inv1 -> fetches c2 st2 inv2 ->
  st1 ≠ st2 ∨ inv1 ≠ inv2 ->
  (poll (poll s c1).1.1 c2).1.2
  = EPoll :: (deliver (w_signal (c_world c2)) (poll s c1).1.1).2
      ++ [EPrint (format_state_change (c_now c2) (Some st1) (Some st2)
                    (Some inv1) (Some inv2))]
  ∧ previous_state (poll (poll s c1).1.1 c2).1.1 = Some st2
  ∧ previous_inverter_states (poll (poll s c1).1.1 c2).1.1 = Some inv2.
Proof.
  intros Hf1 Hf2 Hne.
  destruct (poll_success_previous s c1 st1 inv1 Hf1) as (Hp1 & Hp2).
  split; [| apply (poll_success_previous _ c2 st2 inv2 Hf2)].
  rewrite (poll_success _ _ _ _ Hf2). cbn.
  destruct (deliver_memory (w_signal (c_world c2)) (poll s c1).1.1)
    as (Hd1 & Hd2 & _).
  rewrite check_for_changes_changed.
  - cbn. rewrite Hd1, Hd2, Hp1, Hp2. reflexivity.
  - rewrite Hd1, Hd2, Hp1, Hp2. destruct Hne as [H | H]; [left | right]; congruence.
Qed.

Lemma change_report_chains_witness :
  (poll (poll session_available (quiet_cycle (world_ok "CS01" ["standby"]))).1.1
        (quiet_cycle (world_ok "CS01" ["charging"]))).1.2
  = [EPoll;
     EPrint (newline +:+ "🔔 [2024-05-01 12:00:00] STATE CHANGE DETECTED!"
             +:+ newline
             +:+ "   Device: 🟡 CS01 (Connected (Not Charging)) → 🟡 CS01 (Connected (Not Charging))"
             +:+ newline +:+ "   Inverters: ['standby'] → ['charging']")].
Proof.
  refine (eq_trans (proj1 (change_report_chains session_available
            (quiet_cycle (world_ok "CS01" ["standby"]))
            (quiet_cycle (world_ok "CS01" ["charging"]))
            "CS01" "CS01" [Some "standby"] [Some "charging"] _ _ _)) _).
  - vm_compute. reflexivity.
  - vm_compute. reflexivity.
  - right. discriminate.
  - vm_compute. reflexivity.
Defined.

(** ** What the loop never does *)

Lemma loop_frame_refl (s : session) : loop_frame s s.
Proof. split; [reflexivity | tauto]. Qed.

Lemma loop_frame_trans (s1 s2 s3 : session) :
  loop_frame s1 s2 -> loop_frame s2 s3 -> loop_frame s1 s3.
Proof. unfold loop_frame. intros (-> & ?) (-> & ?). split; [reflexivity | tauto]. Qed.

Lemma deliver_frame (sig : option Z) (s : session) : loop_frame s (deliver sig s).1.
Proof. destruct sig; split; cbn; try reflexivity; try tauto. discriminate. Qed.

Lemma time_sleep_frame (secs : Z) (o : sleep_outcome) (s : session) :
  loop_frame s (time_sleep secs o s).1.1.
Proof.
  unfold time_sleep. destruct (secs <? 0); [apply loop_frame_refl |].
  destruct o as [sig |]; [| apply loop_frame_refl].
  pose proof (deliver_frame sig s) as H.
  destruct (deliver sig s) as [s' t]. exact H.
Qed.

Lemma poll_frame (s : session) (c : cycle) : loop_frame s (poll s c).1.1.
Proof.
  rewrite poll_unfold.
  pose proof (deliver_frame (w_signal (c_world c)) s) as Hd.
  destruct (get_current_state (c_world c)) as [t2 [[[st |] inv] | e]]; cbn;
    try exact Hd.
  eapply loop_frame_trans; [exact Hd |].
  destruct (check_for_changes_previous (deliver (w_signal (c_world c)) s).1
              (c_now c) (Some st) inv) as (_ & _ & Hi & Hr).
  split; [exact Hi | rewrite Hr; tauto].
Qed.

Lemma loop_body_frame (s : session) (c : cycle) : loop_frame s (loop_body s c).1.1.
Proof.
  assert (Hb : loop_frame s (try_body s c).1.1).
  { rewrite try_body_unfold.
    pose proof (time_sleep_frame (poll_interval s) (c_sleep c) s) as Hz.
    destruct (time_sleep (poll_interval s) (c_sleep c) s) as [[s1 t1] [u | e]];
      cbn in *; [| exact Hz].
    destruct (negb (running s1)); cbn; [exact Hz |].
    eapply loop_frame_trans; [exact Hz | apply poll_frame]. }
  rewrite loop_body_unfold.
  destruct (try_body s c) as [[s1 t1] [ctl | [msg |]]]; cbn in *; try exact Hb.
  eapply loop_frame_trans; [exact Hb | apply deliver_frame].
Qed.

(** X4: however long the loop runs it never changes [poll_interval], and
    it never sets [running] back: a session that still runs after the
    loop was running before it. *)
Theorem loop_keeps_interval_and_stop (cycles : list cycle) (s : session) :
  poll_interval (while_running s cycles).1.1 = poll_interval s
  ∧ (running (while_running s cycles).1.1 = true -> running s = true).
Proof.
  change (loop_frame s (while_running s cycles).1.1).
  revert s. induction cycles as [| c cycles IH]; intros s; cbn.
  - destruct (negb (running s)); apply loop_frame_refl.
  - destruct (negb (running s)); [apply loop_frame_refl |].
    pose proof (loop_body_frame s c) as Hb.
    destruct (loop_body s c) as [[s1 t1] [|]]; cbn in *; [| exact Hb].
    specialize (IH s1).
    destruct (while_running s1 cycles) as [[s2 t2] st]. cbn in *.
    eapply loop_frame_trans; eassumption.
Qed.

(** X5: with a negative interval the loop never polls.  Every turn ends
    in the handler of unexpected errors, so whatever the client would have
    answered the trace of the loop has no poll and the session remembers
    what it remembered. *)
Theorem negative_interval_never_polls (cycles : list cycle) (s : session) :
  poll_interval s < 0 ->
  polls (while_running s cycles).1.2 = 0%nat
  ∧ same_memory s (while_running s cycles).1.1.
Proof.
  revert s. induction cycles as [| c cycles IH]; intros s Hneg;
    cbn [while_running].
  - destruct (negb (running s)); split; try reflexivity; apply same_memory_refl.
  - destruct (negb (running s)); [split; [reflexivity | apply same_memory_refl] |].
    rewrite (negative_interval_turn s c Hneg).
    pose proof (deliver_memory (c_recovery_signal c) s) as Hm.
    pose proof (deliver_trace (c_recovery_signal c) s) as (Hdp & _).
    assert (Hneg' : poll_interval (deliver (c_recovery_signal c) s).1 < 0)
      by (destruct Hm as (_ & _ & ->); exact Hneg).
    specialize (IH _ Hneg').
    destruct (while_running (deliver (c_recovery_signal c) s).1 cycles)
      as [[s2 t2] st]. cbn [fst snd] in *.
    destruct IH as (IHp & IHm). split.
    + rewrite !polls_app, IHp, Hdp. reflexivity.
    + eapply same_memory_trans; eassumption.
Qed.

Lemma negative_interval_never_polls_witness :
  polls (while_running (set_previous
                          {| poll_interval := -1; previous_state := None;
                             previous_inverter_states := None; running := true |}
                          (Some "CS00") (Some []))
           [quiet_cycle (world_ok "CS02" ["charging"]);
            quiet_cycle (world_ok "CS03" [])]).1.2 = 0%nat.
Proof.
  apply (negative_interval_never_polls
           [quiet_cycle (world_ok "CS02" ["charging"]);
            quiet_cycle (world_ok "CS03" [])]).
  cbn. lia.
Defined.

(** ** How the process ends *)






(** ** The rhythm of the loop *)

(** X9: a turn of the loop makes at most one poll, and a turn that polls
    has slept the whole interval just before: its trace starts with the
    sleep of [poll_interval] seconds, then the poll, and holds no other
    sleep. *)
Theorem poll_follows_sleep (s : session) (c : cycle) :
  polls (loop_body s c).1.2 = 0%nat
  ∨ (exists rest,
       (loop_body s c).1.2 = ESleep (poll_interval s) :: EPoll :: rest
       ∧ polls rest = 0%nat ∧ sleeps rest = 0%nat).
Proof.
  assert (Hquiet : forall t msg,
            polls t = 0%nat ->
            polls (t ++ [EPrint ("❌ Unexpected error in monitoring loop: " +:+ msg);
                         ESleep recovery_delay]
                     ++ (deliver (c_recovery_signal c) s).2) = 0%nat).
  { intros t msg Ht. rewrite !polls_app, Ht.
    destruct (deliver_trace (c_recovery_signal c) s) as (-> & _). reflexivity. }
  rewrite loop_body_unfold, try_body_unfold. unfold time_sleep.
  destruct (poll_interval s <? 0).
  { left. apply (Hquiet [] _ eq_refl). }
  destruct (c_sleep c) as [sig | [msg |]].
  - destruct sig as [signum |].
    + left. reflexivity.
    + cbn [deliver fst snd].
      destruct (running s); cbn [negb fst snd]; [| left; reflexivity].
      destruct (poll_trace s c) as (rest & Ht & Hp & Hs).
      destruct (poll_result s c) as [Hr | Hr]; rewrite Hr; cbn [fst snd];
        right; exists rest; rewrite Ht; repeat split; assumption.
  - left. apply (Hquiet [] _ eq_refl).
  - left. reflexivity.
Qed.

(** ** The inverter list *)

Lemma for_each_get_state (ii : list info) (invs : list py_value) :
  for_each get_state ii = Returns invs ->
  invs = map record_state ii ∧ Forall is_dict ii.
Proof.
  revert invs. induction ii as [| i ii IH]; intros invs; cbn.
  - intros [= <-]. split; [reflexivity | constructor].
  - destruct i as [d | err]; cbn; [| discriminate].
    destruct (for_each get_state ii) as [bs | e]; cbn; [| discriminate].
    intros [= <-]. destruct (IH bs eq_refl) as (-> & Hall).
    split; [reflexivity | constructor; [exact I | exact Hall]].
Qed.

(** X10: the inverter list of a successful fetch has one entry per
    record the client returned, in the same order; the entry of a record
    is its ['state'] field, and [None] when the record has none: a missing
    field in an inverter record is not an error and does not shorten the
    list. *)
Theorem inverter_states_follow_records (w : device_world) (t : trace)
    (st : py_value) (invs : list py_value) (ii : list info) :
  get_current_state w = (t, Returns (st, Some invs)) ->
  w_inverter_info w = Returns ii ->
  length invs = length ii
  ∧ (forall k d, ii !! k = Some (InfoDict d) -> invs !! k = Some (d !! "state")).
Proof.
  unfold get_current_state, with_fcsp, fetch_body. intros Hg Hi.
  rewrite Hi in Hg.
  destruct (w_enter w) as [[m |] |]; try discriminate.
  destruct (w_exit w) as [[m |] |]; try discriminate.
  destruct (w_charger_info w) as [ci | [m |]]; cbn in Hg; try discriminate.
  destruct (get_state ci) as [v | [m |]]; cbn in Hg; try discriminate.
  destruct (for_each get_state ii) as [bs | [m |]] eqn:Hf; cbn in Hg;
    try discriminate.
  injection Hg as <- <- <-.
  destruct (for_each_get_state ii bs Hf) as (-> & _).
  split; [apply length_map |].
  intros k d Hk. rewrite list_lookup_fmap, Hk. reflexivity.
Qed.

Lemma inverter_states_follow_records_witness :
  length [Some "standby"; None; Some "charging"] = length inverter_records
  ∧ (forall k d,
       inverter_records !! k = Some (InfoDict d) ->
       [Some "standby"; None; Some "charging"] !! k = Some (d !! "state")).
Proof.
  apply (inverter_states_follow_records world_three_inverters
           [] (Some "CS02") [Some "standby"; None; Some "charging"]
           inverter_records).
  - vm_compute. reflexivity.
  - reflexivity.
Defined.

(** * Properties of the packaging script *)

Section Strip.
Import SetupPy.

Lemma lstrip_split (l : text) :
  exists ws, l = ws ++ lstrip l ∧ forallb isspace ws = true.
Proof.
  induction l as [| c l (ws & Hl & Hws)]; [exists []; split; reflexivity |].
  cbn [lstrip]. destruct (isspace c) eqn:Hc.
  - exists (c :: ws). cbn. rewrite Hc, Hws. split; [f_equal; exact Hl | reflexivity].
  - exists []. split; reflexivity.
Qed.

Lemma lstrip_head (l : text) (c : N) (r : text) :
  lstrip l = c :: r -> isspace c = false.
Proof.
  induction l as [| a l IH]; cbn [lstrip]; [discriminate |].
  destruct (isspace a) eqn:Ha; [exact IH |].
  intros [= -> _]. exact Ha.
Qed.

Lemma lstrip_spaces (ws l : text) :
  forallb isspace ws = true -> lstrip (ws ++ l) = lstrip l.
Proof.
  induction ws as [| c ws IH]; cbn; [reflexivity |].
  intros [Hc Hws]%andb_prop. rewrite Hc. exact (IH Hws).
Qed.

Lemma rev_head_last (l : text) : last (rev l) = head l.
Proof. destruct l as [| c l]; [reflexivity |]. cbn. apply last_snoc. Qed.

Lemma rstrip_split (l : text) :
  exists ws, l = rstrip l ++ ws ∧ forallb isspace ws = true.
Proof.
  destruct (lstrip_split (rev l)) as (ws & Hl & Hws).
  exists (rev ws). split.
  - unfold rstrip. rewrite <- rev_app_distr, <- Hl, rev_involutive. reflexivity.
  - rewrite forallb_forall in *. intros x Hx. apply Hws, in_rev, Hx.
Qed.

Lemma rstrip_last (l : text) (c : N) :
  last (rstrip l) = Some c -> isspace c = false.
Proof.
  unfold rstrip. rewrite rev_head_last.
  destruct (lstrip (rev l)) as [| a r] eqn:H; [discriminate |].
  intros [= <-]. exact (lstrip_head _ _ _ H).
Qed.

(** [rstrip] leaves alone a first character that is not a space. *)
Lemma rstrip_head (c : N) (r : text) :
  isspace c = false -> exists r', rstrip (c :: r) = c :: r'.
Proof.
  intros Hc. destruct (rstrip_split (c :: r)) as (ws & Hl & Hws).
  destruct (rstrip (c :: r)) as [| a r'].
  - cbn in Hl. subst ws. cbn in Hws. rewrite Hc in Hws. discriminate.
  - injection Hl as <- _. eauto.
Qed.

Lemma strip_head (l : text) (c : N) :
  head (strip l) = Some c -> isspace c = false.
Proof.
  unfold strip. destruct (lstrip l) as [| a r] eqn:H; [discriminate |].
  pose proof (lstrip_head _ _ _ H) as Ha.
  destruct (rstrip_head a r Ha) as (r' & ->). intros [= <-]. exact Ha.
Qed.

Lemma strip_blank (l : text) : forallb isspace l = true -> strip l = [].
Proof.
  intros H. unfold strip.
  rewrite <- (app_nil_r l), (lstrip_spaces l [] H). reflexivity.
Qed.

Lemma keeps_blank (l : text) : forallb isspace l = true -> keeps l = false.
Proof. intros H. unfold keeps. rewrite (strip_blank l H). reflexivity. Qed.

Lemma keeps_comment (l : text) : starts_with_hash l = true -> keeps l = false.
Proof. intros H. unfold keeps. rewrite H. destruct (strip l); reflexivity. Qed.

End Strip.

(** X11: every requirement [read_requirements] returns is a non-empty
    text with no white space at its start and none at its end. *)
Theorem requirements_are_stripped (fs : SetupPy.files)
    (reqs : list SetupPy.text) (r : SetupPy.text) :
  SetupPy.read_requirements fs = Returns reqs ->
  In r reqs ->
  r ≠ []
  ∧ (forall c, head r = Some c -> SetupPy.isspace c = false)
  ∧ (forall c, last r = Some c -> SetupPy.isspace c = false).
Proof.
  unfold SetupPy.read_requirements.
  destruct (SetupPy.requirements_txt fs) as [[lines | e] |]; cbn;
    try discriminate; intros [= <-]; [| intros []].
  unfold SetupPy.requirement_lines. rewrite in_map_iff.
  intros (line & <- & Hin). apply filter_In in Hin as (_ & Hkeep).
  split; [| split].
  - unfold SetupPy.keeps in Hkeep.
    destruct (SetupPy.strip line); [discriminate | discriminate].
  - apply strip_head.
  - apply rstrip_last.
Qed.

Lemma requirements_are_stripped_witness :
  SetupPy.text_of_string "urllib3" ≠ []
  ∧ (forall c, head (SetupPy.text_of_string "urllib3") = Some c ->
               SetupPy.isspace c = false)
  ∧ (forall c, last (SetupPy.text_of_string "urllib3") = Some c ->
               SetupPy.isspace c = false).
Proof.
  apply (requirements_are_stripped SetupPy.sample_files
           (map SetupPy.text_of_string
              ["requests>=2.25"; "urllib3"; "# pinned later"])).
  - vm_compute. reflexivity.
  - right. left. reflexivity.
Defined.

(** X12: a line of white space only, and a line whose first character is
    [#], add nothing to the requirements, wherever they stand in the
    file. *)
Theorem blank_and_comment_lines_dropped (before after : list SetupPy.text)
    (line : SetupPy.text) :
  forallb SetupPy.isspace line = true ∨ SetupPy.starts_with_hash line = true ->
  SetupPy.requirement_lines (before ++ line :: after)
  = SetupPy.requirement_lines (before ++ after).
Proof.
  intros H. unfold SetupPy.requirement_lines.
  rewrite !List.filter_app. cbn [List.filter].
  destruct H as [H | H];
    [rewrite (keeps_blank line H) | rewrite (keeps_comment line H)]; reflexivity.
Qed.

Lemma blank_and_comment_lines_dropped_witness :
  SetupPy.requirement_lines
    ([SetupPy.text_of_string "requests"]
     ++ SetupPy.text_of_string "#urllib3" :: [SetupPy.text_of_string "six"])
  = SetupPy.requirement_lines
      ([SetupPy.text_of_string "requests"] ++ [SetupPy.text_of_string "six"]).
Proof.
  apply (blank_and_comment_lines_dropped [SetupPy.text_of_string "requests"]
           [SetupPy.text_of_string "six"] (SetupPy.text_of_string "#urllib3")).
  right. reflexivity.
Defined.

(** X13: the comment test looks at the line as read, not at the stripped
    line: a comment that is indented is kept, and the requirement it gives
    starts with [#]. *)
Theorem indented_comment_is_kept (ws rest : SetupPy.text)
    (before after : list SetupPy.text) :
  ws ≠ [] ->
  forallb SetupPy.isspace ws = true ->
  SetupPy.keeps (ws ++ 35%N :: rest) = true
  ∧ SetupPy.starts_with_hash (SetupPy.strip (ws ++ 35%N :: rest)) = true
  ∧ In (SetupPy.strip (ws ++ 35%N :: rest))
       (SetupPy.requirement_lines (before ++ (ws ++ 35%N :: rest) :: after)).
Proof.
  intros Hne Hws.
  assert (Hstrip : exists r', SetupPy.strip (ws ++ 35%N :: rest) = 35%N :: r').
  { unfold SetupPy.strip. rewrite (lstrip_spaces ws _ Hws). cbn [SetupPy.lstrip].
    change (SetupPy.isspace 35) with false. cbv iota.
    apply rstrip_head. reflexivity. }
  destruct Hstrip as (r' & Hstrip).
  assert (Hkeep : SetupPy.keeps (ws ++ 35%N :: rest) = true).
  { unfold SetupPy.keeps. rewrite Hstrip.
    destruct ws as [| c ws]; [contradiction |].
    cbn in Hws. apply andb_prop in Hws as [Hc _]. cbn.
    destruct (N.eqb_spec c 35) as [-> | _]; [discriminate Hc | reflexivity]. }
  split; [exact Hkeep |]. split; [rewrite Hstrip; reflexivity |].
  unfold SetupPy.requirement_lines. apply in_map, filter_In.
  split; [apply in_elt | exact Hkeep].
Qed.

Lemma indented_comment_is_kept_witness :
  In (SetupPy.text_of_string "# pinned later")
     (SetupPy.requirement_lines
        ([] ++ (SetupPy.text_of_string "    "
                ++ 35%N :: SetupPy.text_of_string " pinned later") :: [])).
Proof.
  apply (indented_comment_is_kept (SetupPy.text_of_string "    ")
           (SetupPy.text_of_string " pinned later") [] []).
  - discriminate.
  - reflexivity.
Defined.

(** X14: the script needs [README.md] and not [requirements.txt].  It
    gets to the call of [setup] exactly when the README can be read and
    the requirements file is absent or can be read; an absent requirements
    file gives an empty [install_requires]; an error on the README ends
    the script with that error whatever the requirements file is. *)
Theorem setup_needs_readme_only (fs : SetupPy.files) :
  ((exists kw, SetupPy.setup_py fs = Returns kw)
   <-> (exists t, SetupPy.readme_md fs = Returns t)
       ∧ (SetupPy.requirements_txt fs = None
          ∨ exists lines, SetupPy.requirements_txt fs = Some (Returns lines)))
  ∧ (forall kw, SetupPy.setup_py fs = Returns kw ->
                SetupPy.requirements_txt fs = None ->
                SetupPy.kw_install_requires kw = [])
  ∧ (forall e, SetupPy.readme_md fs = Raises e -> SetupPy.setup_py fs = Raises e).
Proof.
  unfold SetupPy.setup_py, SetupPy.read_readme, SetupPy.read_requirements.
  destruct (SetupPy.readme_md fs) as [t | e]; cbn.
  - destruct (SetupPy.requirements_txt fs) as [[lines | e] |]; cbn.
    + split; [split; eauto |]. split; [discriminate | discriminate].
    + split; [split; [intros (kw & [=]) |] |].
      * intros (_ & [[=] | (l & [=])]).
      * split; discriminate.
    + split; [split; eauto |]. split; [| discriminate].
      intros kw [= <-] _. reflexivity.
  - split; [split; [intros (kw & [=]) | intros ((t & [=]) & _)] |].
    split; [discriminate |]. intros e' [= <-]. reflexivity.
Qed.

(** * The monitor under errors *)

(** X15: a fetch that fails inside the loop costs the turn and nothing
    else: after the sleep and the poll the turn prints the error of the
    fetch, runs no recovery delay, and ends with the loop going on and the
    session as it was. *)
Theorem failed_fetch_turn (s : session) (c : cycle) (msg : string) :
  reaches_poll s c ->
  w_signal (c_world c) = None ->
  fetch_failure (c_world c) msg ->
  loop_body s c
  = (s, [ESleep (poll_interval s); EPoll;
         EPrint ("❌ Error getting state: " +:+ msg)], Next).
Proof.
  intros Hreach Hsig Hfail.
  assert (Hpoll : poll s c
            = (s, [EPoll; EPrint ("❌ Error getting state: " +:+ msg)],
               Returns Next)).
  { rewrite (poll_failed s c _ None (fetch_failure_marker _ msg Hfail)), Hsig.
    reflexivity. }
  rewrite (loop_body_reaches_poll s c Hreach) by (rewrite Hpoll; reflexivity).
  rewrite Hpoll. reflexivity.
Qed.

Lemma failed_fetch_turn_witness :
  loop_body session_available (quiet_cycle (world_unreachable "timed out"))
  = (session_available,
     [ESleep 30; EPoll; EPrint "❌ Error getting state: timed out"], Next).
Proof.
  apply (failed_fetch_turn session_available
           (quiet_cycle (world_unreachable "timed out")) "timed out").
  - repeat split; cbn; lia.
  - reflexivity.
  - apply fail_enter. reflexivity.
Defined.

Lemma for_each_get_state_raises (ii : list info) (e : py_exc) :
  for_each get_state ii = Raises e -> exists msg, e = Exc msg.
Proof.
  induction ii as [| i ii IH]; cbn; [discriminate |].
  destruct i as [d | err]; cbn; [| intros [= <-]; eauto].
  destruct (for_each get_state ii) as [bs | e']; cbn; [discriminate |].
  intros [= <-]. apply IH. reflexivity.
Qed.

Lemma calm_world_returns (w : device_world) :
  calm_world w -> exists t v, get_current_state w = (t, Returns v).
Proof.
  intros (_ & He & Hx & Hc & Hi).
  destruct (get_current_state_cases w) as [(d & i & H) | [(m & H) | H]];
    [eauto | eauto |].
  exfalso. revert H. unfold get_current_state, with_fcsp, fetch_body.
  destruct (w_enter w) as [[m |] |]; [discriminate | congruence |].
  destruct (w_exit w) as [[m |] |]; [discriminate | congruence |].
  destruct (w_charger_info w) as [ci | [m |]]; cbn;
    [| discriminate | congruence].
  destruct (w_inverter_info w) as [ii | [m |]]; cbn;
    [| discriminate | congruence].
  destruct ci as [d | err]; cbn; [| discriminate].
  destruct (for_each get_state ii) as [bs | e] eqn:Hf; cbn; [discriminate |].
  destruct (for_each_get_state_raises ii e Hf) as (m & ->). discriminate.
Qed.

Lemma calm_turn (s : session) (c : cycle) :
  calm_cycle c -> running s = true ->
  (loop_body s c).2 = Next ∧ running (loop_body s c).1.1 = true.
Proof.
  intros (Hsleep & Hw & Hrec) Hrun.
  rewrite loop_body_unfold, try_body_unfold, Hrec. unfold time_sleep.
  assert (Hpoll : (poll s c).2 = Returns Next ∧ running (poll s c).1.1 = true).
  { rewrite poll_running. destruct Hw as (Hsig & Hrest). rewrite Hsig. cbn.
    split; [| exact Hrun].
    destruct (calm_world_returns (c_world c) (conj Hsig Hrest)) as (t & v & Hg).
    rewrite poll_unfold, Hg. cbn. destruct v as [[st |] inv]; reflexivity. }
  destruct Hpoll as (Hp1 & Hp2).
  destruct (poll_interval s <? 0); [cbn; auto |].
  destruct Hsleep as [-> | (msg & ->)]; cbn; [| auto].
  rewrite Hrun. cbn. rewrite Hp1. cbn. auto.
Qed.

(** X16: errors never stop the monitor.  As long as no signal is
    delivered and no [KeyboardInterrupt] is raised, the loop is still
    running after any number of turns, whatever the sleeps and the client
    raise in them. *)
Theorem errors_never_stop_the_loop (cycles : list cycle) (s : session) :
  Forall calm_cycle cycles ->
  running s = true ->
  (while_running s cycles).2 = LoopRunning
  ∧ running (while_running s cycles).1.1 = true.
Proof.
  revert s. induction cycles as [| c cycles IH]; intros s Hcalm Hrun;
    cbn [while_running]; rewrite Hrun; cbn [negb]; [auto |].
  apply Forall_cons in Hcalm as (Hc & Hcalm).
  destruct (calm_turn s c Hc Hrun) as (Hnext & Hrun').
  destruct (loop_body s c) as [[s1 t1] ctl]. cbn [fst snd] in *. subst ctl.
  specialize (IH s1 Hcalm Hrun').
  destruct (while_running s1 cycles) as [[s2 t2] st]. exact IH.
Qed.

Lemma errors_never_stop_the_loop_witness :
  (while_running session_available
     [quiet_cycle (world_unreachable "timed out");
      faulty_sleep_cycle "Interrupted system call";
      quiet_cycle (world_ok "CS03" [])]).2 = LoopRunning.
Proof.
  apply (errors_never_stop_the_loop
           [quiet_cycle (world_unreachable "timed out");
            faulty_sleep_cycle "Interrupted system call";
            quiet_cycle (world_ok "CS03" [])] session_available).
  - apply Forall_cons. split.
    { split; [left; reflexivity |]. split; [| reflexivity].
      repeat split; discriminate. }
    apply Forall_cons. split.
    { split; [right; eexists; reflexivity |]. split; [| reflexivity].
      repeat split; discriminate. }
    apply Forall_cons. split; [| apply Forall_nil; exact I].
    split; [left; reflexivity |]. split; [| reflexivity].
    repeat split; discriminate.
  - reflexivity.
Defined.
